(** * Warbot: streaming-delta aggregation and the tool-calling loop

    A shallow embedding of [warbot/stream_handler.py], [warbot/tools/registry.py]
    and [warbot/bot.py], with the properties of the aggregation engine and of
    the conversation loop stated over it.

    Conventions of the embedding.
    - A Python [str] is a [string]; a Python [int] is a [Z]; [None] is [None].
    - A Python [dict] is an association list in insertion order: iteration
      ([items()], [values()]) follows the list, assignment to an existing key
      keeps its position, assignment to a new key appends.
    - Callbacks are modelled by the trace of their invocations (a list of
      [Event]s); the closures of [send_message] are a fold over that trace.
    - A call that may raise returns a [Result]: [Ok] with its value, or
      [Raised] with the exception. *)

From Stdlib Require Import List String Ascii ZArith Bool Lia.
From Stdlib Require Import DecimalString DecimalZ DecimalPos.
Import ListNotations.
Local Open Scope string_scope.
Local Open Scope list_scope.

Set Implicit Arguments.

(** ** Python primitives *)

Module Py.

(** Truthiness of a [str]: the empty string is falsy. *)
Definition truthy (s : string) : bool := negb (String.eqb s EmptyString).

(** Truthiness of an [Optional[str]]. *)
Definition truthy_opt (o : option string) : bool :=
  match o with
  | Some s => truthy s
  | None => false
  end.

(** [a or b] where [a : Optional[str]] and [b : str]. *)
Definition or_else (a : option string) (b : string) : string :=
  match a with
  | Some s => if truthy s then s else b
  | None => b
  end.

(** [a or b] on two strings. *)
Definition str_or (a b : string) : string := if truthy a then a else b.

(** Joining the parts with the empty separator. *)
Definition join (parts : list string) : string := String.concat EmptyString parts.

(** [str(i)] for an [int]. *)
Definition str_of_int (i : Z) : string := NilZero.string_of_int (Z.to_int i).

(** [str(n)] for a non-negative [int] (a position given by [enumerate]). *)
Definition str_of_nat (n : nat) : string := NilZero.string_of_uint (Nat.to_uint n).

(** Equality of an [Optional[int]] with an [int]: [None == i] is [False]. *)
Definition opt_int_eqb (o : option Z) (i : Z) : bool :=
  match o with
  | Some j => Z.eqb j i
  | None => false
  end.

(** *** Insertion-ordered dictionaries keyed by strings *)

Section Dict.

Variable V : Type.

Definition dict : Type := list (string * V).

Fixpoint get (k : string) (d : dict) : option V :=
  match d with
  | [] => None
  | (k', v) :: rest => if String.eqb k k' then Some v else get k rest
  end.

(** [k in d]. *)
Definition contains (k : string) (d : dict) : bool :=
  match get k d with
  | Some _ => true
  | None => false
  end.

(** [d[k] = v]: in place for a known key, appended for a new one. *)
Fixpoint set (k : string) (v : V) (d : dict) : dict :=
  match d with
  | [] => [(k, v)]
  | (k', v') :: rest =>
      if String.eqb k k' then (k', v) :: rest else (k', v') :: set k v rest
  end.

Definition keys (d : dict) : list string := map fst d.

Definition values (d : dict) : list V := map snd d.

End Dict.

End Py.

(** ** Partial tool calls as they arrive in a delta *)

(** The [function] part of a partial tool call. *)
Record FunctionDelta : Type := {
  fn_name : option string;
  fn_arguments : option string
}.

(** One element of [delta.tool_calls].  The code accepts an attribute-carrying
    object and a plain [dict]; [call_is_dict] says which one it is.  A field
    is [None] when the attribute (or key) is missing or holds [None]. *)
Record CallDelta : Type := {
  call_is_dict : bool;
  call_id : option string;
  call_type : option string;
  call_index : option Z;
  call_function : option FunctionDelta
}.

(** The finished payload built by [ToolCallBuilder.to_dict]. *)
Record ToolCall : Type := {
  tc_id : string;
  tc_type : string;
  tc_name : string;
  tc_arguments : string
}.

(** ** [ToolCallBuilder] *)

Module ToolCallBuilder.

Record t : Type := {
  id : string;
  index : option Z;
  type : string;
  function_name : string;
  arguments : list string
}.

(** The dataclass constructor with its defaults. *)
Definition make (id : string) (index : option Z) (type : string) : t :=
  {| id := id; index := index; type := type;
     function_name := EmptyString; arguments := [] |}.

(** The [isinstance(delta, dict)] branch of [update]. *)
Definition update_dict (self : t) (delta : CallDelta) : t :=
  let id1 :=
    if negb (Py.truthy self.(id)) && Py.truthy_opt delta.(call_id)
    then Py.or_else delta.(call_id) self.(id)
    else self.(id) in
  let index1 :=
    match self.(index), delta.(call_index) with
    | None, Some i => Some i
    | _, _ => self.(index)
    end in
  let fn :=
    match delta.(call_function) with
    | Some f => f
    | None => {| fn_name := None; fn_arguments := None |}
    end in
  let name := fn.(fn_name) in
  let args := fn.(fn_arguments) in
  let function_name1 :=
    match name with
    | Some n => if Py.truthy n then n else self.(function_name)
    | None => self.(function_name)
    end in
  let arguments1 :=
    match args with
    | Some a => if Py.truthy a then self.(arguments) ++ [a] else self.(arguments)
    | None => self.(arguments)
    end in
  {| id := id1; index := index1; type := self.(type);
     function_name := function_name1; arguments := arguments1 |}.

(** The attribute branch of [update]: nothing happens unless the delta has a
    [function]. *)
Definition update_obj (self : t) (delta : CallDelta) : t :=
  match delta.(call_function) with
  | None => self
  | Some fn =>
      let id1 :=
        if negb (Py.truthy self.(id)) && Py.truthy_opt delta.(call_id)
        then match delta.(call_id) with Some i => i | None => self.(id) end
        else self.(id) in
      let index1 :=
        match self.(index), delta.(call_index) with
        | None, Some i => Some i
        | _, _ => self.(index)
        end in
      let function_name1 :=
        if Py.truthy_opt fn.(fn_name)
        then Py.or_else fn.(fn_name) self.(function_name)
        else self.(function_name) in
      let arguments1 :=
        match fn.(fn_arguments) with
        | Some a => if Py.truthy a then self.(arguments) ++ [a] else self.(arguments)
        | None => self.(arguments)
        end in
      {| id := id1; index := index1; type := self.(type);
         function_name := function_name1; arguments := arguments1 |}
  end.

Definition update (self : t) (delta : CallDelta) : t :=
  if delta.(call_is_dict) then update_dict self delta else update_obj self delta.

Definition to_dict (self : t) : ToolCall :=
  {| tc_id := Py.str_or self.(id) "call";
     tc_type := self.(type);
     tc_name := Py.str_or self.(function_name) "unknown_function";
     tc_arguments := Py.join self.(arguments) |}.

End ToolCallBuilder.

(** ** Protocol fragments *)

(** A reasoning payload: a string, or a list whose elements are rendered with
    [str]. *)
Inductive ThinkingVal : Type :=
| ThinkingStr (s : string)
| ThinkingList (parts : list string).

(** The four field names probed for reasoning text, at one structural level.
    [None] stands for a missing attribute as well as for one holding [None]. *)
Record ThinkingFields : Type := {
  thinking : option ThinkingVal;
  reasoning : option ThinkingVal;
  reasoning_content : option ThinkingVal;
  internal_monologue : option ThinkingVal
}.

Definition no_thinking : ThinkingFields :=
  {| thinking := None; reasoning := None;
     reasoning_content := None; internal_monologue := None |}.

(** One part of a list-valued [content]. *)
Inductive ContentPart : Type :=
| PartStr (s : string)
| PartDict (text : option string)
| PartObj (text : string)
| PartOther.

Inductive Content : Type :=
| ContentStr (s : string)
| ContentList (parts : list ContentPart).

(** [choice.delta].  When [delta_is_dict] holds the fields are dictionary
    entries, which [hasattr] and [getattr] do not see. *)
Record Delta : Type := {
  delta_is_dict : bool;
  delta_fields : ThinkingFields;
  delta_content : option Content;
  delta_tool_calls : option (list CallDelta)
}.

Record Choice : Type := {
  delta : Delta;
  finish_reason : option string;
  choice_fields : ThinkingFields
}.

Record Chunk : Type := {
  choices : list Choice;
  chunk_fields : ThinkingFields
}.

(** ** Callback traces *)

(** The records passed to [on_debug]. *)
Inductive DebugMsg : Type :=
| DbgNoChoices
| DbgThinkingDelta (v : ThinkingVal)
| DbgToolCallsDelta (n : nat)
| DbgFinishReason (reason : string).

(** One callback invocation. *)
Inductive Event : Type :=
| OnThinking (text : string)
| OnContent (text : string)
| OnToolCall (call : ToolCall)
| OnFinish (reason : string)
| OnDebug (msg : DebugMsg).

(** ** [StreamHandler] *)

Module StreamHandler.

Definition tool_calls_t : Type := Py.dict ToolCallBuilder.t.

(** The factory of the [defaultdict] that holds the builders. *)
Definition default_builder : ToolCallBuilder.t := ToolCallBuilder.make EmptyString None "function".

(** [tool_calls[key]] on the [defaultdict]. *)
Definition getitem (key : string) (tool_calls : tool_calls_t) : ToolCallBuilder.t :=
  match Py.get key tool_calls with
  | Some b => b
  | None => default_builder
  end.

(** *** [_emit_thinking] *)

Definition thinking_truthy (v : option ThinkingVal) : bool :=
  match v with
  | Some (ThinkingStr s) => Py.truthy s
  | Some (ThinkingList (_ :: _)) => true
  | _ => false
  end.

(** One pass of [for field_name in [...]] over a level: the first truthy
    field in the fixed order. *)
Definition probe (f : ThinkingFields) : option ThinkingVal :=
  if thinking_truthy f.(thinking) then f.(thinking)
  else if thinking_truthy f.(reasoning) then f.(reasoning)
  else if thinking_truthy f.(reasoning_content) then f.(reasoning_content)
  else if thinking_truthy f.(internal_monologue) then f.(internal_monologue)
  else None.

Definition thinking_text (v : ThinkingVal) : string :=
  match v with
  | ThinkingStr s => s
  | ThinkingList parts => Py.join parts
  end.

Definition find_thinking (d : Delta) (choice : Choice) (chunk : Chunk) : option ThinkingVal :=
  let t0 := if d.(delta_is_dict) then None else probe d.(delta_fields) in
  let t1 :=
    if negb (thinking_truthy t0) && d.(delta_is_dict) then probe d.(delta_fields) else t0 in
  let t2 := if negb (thinking_truthy t1) then probe choice.(choice_fields) else t1 in
  if negb (thinking_truthy t2) then probe chunk.(chunk_fields) else t2.

Definition _emit_thinking (d : Delta) (choice : Choice) (chunk : Chunk) : list Event :=
  match find_thinking d choice chunk with
  | None => []
  | Some v =>
      let text := thinking_text v in
      if Py.truthy text then [OnThinking text] else []
  end.

(** *** [_emit_content] *)

Definition content_truthy (c : Content) : bool :=
  match c with
  | ContentStr s => Py.truthy s
  | ContentList [] => false
  | ContentList (_ :: _) => true
  end.

Fixpoint text_parts (parts : list ContentPart) : list string :=
  match parts with
  | [] => []
  | PartStr s :: rest => s :: text_parts rest
  | PartDict (Some s) :: rest => s :: text_parts rest
  | PartDict None :: rest => EmptyString :: text_parts rest
  | PartObj s :: rest => s :: text_parts rest
  | PartOther :: rest => text_parts rest
  end.

Definition _emit_content (d : Delta) : list Event :=
  match (if d.(delta_is_dict) then None else d.(delta_content)) with
  | None => []
  | Some content =>
      if content_truthy content then
        let text :=
          match content with
          | ContentList parts => Py.join (text_parts parts)
          | ContentStr s => s
          end in
        if Py.truthy text then [OnContent text] else []
      else []
  end.

(** *** [_collect_tool_calls] *)

(** The inner [for existing_key, builder in tool_calls.items()] with its
    [break]: the key of the first builder whose index equals [ci]. *)
Fixpoint find_by_index (ci : Z) (items : tool_calls_t) : option string :=
  match items with
  | [] => None
  | (existing_key, builder) :: rest =>
      if Py.opt_int_eqb builder.(ToolCallBuilder.index) ci
      then Some existing_key
      else find_by_index ci rest
  end.

(** The key a partial call is merged under; [idx] is its position in the
    batch. *)
Definition resolve_key (idx : nat) (call : CallDelta) (tool_calls : tool_calls_t) : string :=
  let key := call.(call_id) in
  let key :=
    match key, call.(call_index) with
    | None, Some ci => find_by_index ci tool_calls
    | _, _ => key
    end in
  match key with
  | Some k => k
  | None =>
      match call.(call_index) with
      | Some ci => "idx_" ++ Py.str_of_int ci
      | None => "call_" ++ Py.str_of_nat idx
      end
  end.

(** The body of the loop over [enumerate(calls)]. *)
Definition collect_one (idx : nat) (call : CallDelta) (tool_calls : tool_calls_t) : tool_calls_t :=
  let key := resolve_key idx call tool_calls in
  let tool_calls :=
    if Py.contains key tool_calls then tool_calls
    else Py.set key
           (ToolCallBuilder.make (Py.or_else call.(call_id) key)
                                 call.(call_index)
                                 (Py.or_else call.(call_type) "function"))
           tool_calls in
  let builder := getitem key tool_calls in
  Py.set key (ToolCallBuilder.update builder call) tool_calls.

Fixpoint collect_from (idx : nat) (calls : list CallDelta) (tool_calls : tool_calls_t) : tool_calls_t :=
  match calls with
  | [] => tool_calls
  | call :: rest => collect_from (S idx) rest (collect_one idx call tool_calls)
  end.

(** [getattr(delta, "tool_calls", None)]. *)
Definition delta_calls (d : Delta) : list CallDelta :=
  if d.(delta_is_dict) then []
  else match d.(delta_tool_calls) with
       | Some calls => calls
       | None => []
       end.

Definition _collect_tool_calls (d : Delta) (tool_calls : tool_calls_t) : tool_calls_t :=
  match delta_calls d with
  | [] => tool_calls
  | calls => collect_from 0 calls tool_calls
  end.

(** *** [_emit_tool_calls] *)

Definition _emit_tool_calls (tool_calls : tool_calls_t) : list Event :=
  map (fun builder => OnToolCall (ToolCallBuilder.to_dict builder)) (Py.values tool_calls).

(** *** [handle_stream] *)

(** The diagnostics block at the top of the loop body. *)
Definition debug_events (d : Delta) (choice : Choice) : list Event :=
  (if d.(delta_is_dict) then []
   else match d.(delta_fields).(thinking) with
        | Some v => if thinking_truthy (Some v) then [OnDebug (DbgThinkingDelta v)] else []
        | None => []
        end)
  ++ (match delta_calls d with
      | [] => []
      | calls => [OnDebug (DbgToolCallsDelta (List.length calls))]
      end)
  ++ (match choice.(finish_reason) with
      | Some r => if Py.truthy r then [OnDebug (DbgFinishReason r)] else []
      | None => []
      end).

(** One iteration of [for chunk in stream]: the callbacks made and the
    builders left for the next iteration.  [on_finish] and [on_debug] say
    whether the optional callbacks were given. *)
Definition handle_chunk (on_finish on_debug : bool) (chunk : Chunk)
    (tool_calls : tool_calls_t) : list Event * tool_calls_t :=
  match chunk.(choices) with
  | [] => (if on_debug then [OnDebug DbgNoChoices] else [], tool_calls)
  | choice :: _ =>
      let d := choice.(delta) in
      let dbg := if on_debug then debug_events d choice else [] in
      let th := _emit_thinking d choice chunk in
      let co := _emit_content d in
      let tool_calls := _collect_tool_calls d tool_calls in
      match choice.(finish_reason) with
      | Some r =>
          if Py.truthy r then
            (dbg ++ th ++ co
               ++ (if String.eqb r "tool_calls" then _emit_tool_calls tool_calls else [])
               ++ (if on_finish then [OnFinish r] else []),
             [])
          else (dbg ++ th ++ co, tool_calls)
      | None => (dbg ++ th ++ co, tool_calls)
      end
  end.

Fixpoint handle_from (on_finish on_debug : bool) (stream : list Chunk)
    (tool_calls : tool_calls_t) : list Event :=
  match stream with
  | [] => []
  | chunk :: rest =>
      let (evs, tool_calls') := handle_chunk on_finish on_debug chunk tool_calls in
      evs ++ handle_from on_finish on_debug rest tool_calls'
  end.

Definition handle_stream (on_finish on_debug : bool) (stream : list Chunk) : list Event :=
  handle_from on_finish on_debug stream [].

End StreamHandler.

(** ** Structured data exchanged with the tools *)

#[local] Set Warnings "-register-all".

(** What [json.loads] returns and [json.dumps] accepts. *)
Inductive JValue : Type :=
| JNull
| JBool (b : bool)
| JInt (i : Z)
| JStr (s : string)
| JList (items : list JValue)
| JDict (entries : list (string * JValue)).

(** The exceptions that occur in the modelled code. *)
Inductive Exn : Type :=
| KeyError (msg : string)
| TypeError (msg : string)
| HandlerError (kind msg : string).

Inductive Result (A : Type) : Type :=
| Ok (a : A)
| Raised (e : Exn).

Arguments Ok {A} a.
Arguments Raised {A} e.

(** ** [ToolRegistry] *)

Module ToolRegistry.

(** A [Tool]: its three class attributes and its [execute], applied to the keyword arguments. *)
Record Tool : Type := {
  name : string;
  description : string;
  parameters : JValue;
  tool_execute : list (string * JValue) -> Result JValue
}.

Record FunctionSchema : Type := {
  schema_name : string;
  schema_description : string;
  schema_parameters : JValue
}.

Definition to_function_schema (tool : Tool) : FunctionSchema :=
  {| schema_name := tool.(name);
     schema_description := tool.(description);
     schema_parameters := tool.(parameters) |}.

(** The [_tools] dictionary. *)
Definition t : Type := Py.dict Tool.

Definition empty : t := [].

Definition register (tool : Tool) (self : t) : t := Py.set tool.(name) tool self.

Definition list_tools (self : t) : list Tool := Py.values self.

Definition get_function_schemas (self : t) : list FunctionSchema :=
  map to_function_schema (Py.values self).

Definition execute (self : t) (name : string) (kwargs : list (string * JValue)) : Result JValue :=
  match Py.get name self with
  | None => Raised (KeyError ("Tool '" ++ name ++ "' is not registered."))
  | Some tool => tool.(tool_execute) kwargs
  end.

(** The call [registry.execute(name, **args)] as [_execute_tool_calls] writes
    it: [args] has to be a mapping, and none of its keys may name a
    positional parameter of [execute]. *)
Definition call_execute (self : t) (name : string) (args : JValue) : Result JValue :=
  match args with
  | JDict kwargs =>
      if existsb (fun kv => String.eqb (fst kv) "self" || String.eqb (fst kv) "name") kwargs
      then Raised (TypeError "execute() got multiple values for an argument")
      else execute self name kwargs
  | _ => Raised (TypeError "argument after ** must be a mapping")
  end.

End ToolRegistry.

(** ** [Warbot] *)

(** One entry of the conversation history. *)
Inductive Message : Type :=
| SystemMsg (content : string)
| UserMsg (content : string)
| AssistantMsg (content : string)
| AssistantToolCalls (tool_calls : list ToolCall)
| ToolMsg (tool_call_id name content : string).

(** What reaches the console. *)
Inductive ConsoleItem : Type :=
| ShowThinking (text : string)
| ShowContent (text : string)
| ShowToolCall (summary : string).

Module Warbot.

(** The per-round variables of [send_message] that its closures write. *)
Record RoundState : Type := {
  assistant_chunks : list string;
  tool_calls : list ToolCall;
  finish_reason : option string;
  has_tool_calls : bool;
  console : list ConsoleItem;
  debug_log : list DebugMsg
}.

Definition round_start : RoundState :=
  {| assistant_chunks := []; tool_calls := []; finish_reason := None;
     has_tool_calls := false; console := []; debug_log := [] |}.

Definition _log_thinking (text : string) : list ConsoleItem :=
  if Py.truthy text then [ShowThinking text] else [].

Definition _log_content (text : string) : list ConsoleItem :=
  if Py.truthy text then [ShowContent text] else [].

Definition _log_tool_call (call : ToolCall) : list ConsoleItem :=
  [ShowToolCall ("[tool] " ++ call.(tc_name))].

(** The callbacks given to the [StreamHandler]: [_log_thinking],
    [_on_content], [_on_tool_call], [_on_finish] and [logger.debug]. *)
Definition on_event (st : RoundState) (ev : Event) : RoundState :=
  match ev with
  | OnThinking text =>
      {| assistant_chunks := st.(assistant_chunks); tool_calls := st.(tool_calls);
         finish_reason := st.(finish_reason); has_tool_calls := st.(has_tool_calls);
         console := st.(console) ++ _log_thinking text; debug_log := st.(debug_log) |}
  | OnContent text =>
      {| assistant_chunks := st.(assistant_chunks) ++ [text]; tool_calls := st.(tool_calls);
         finish_reason := st.(finish_reason); has_tool_calls := st.(has_tool_calls);
         console := st.(console) ++ (if st.(has_tool_calls) then [] else _log_content text);
         debug_log := st.(debug_log) |}
  | OnToolCall call =>
      {| assistant_chunks := st.(assistant_chunks); tool_calls := st.(tool_calls) ++ [call];
         finish_reason := st.(finish_reason); has_tool_calls := true;
         console := st.(console) ++ _log_tool_call call; debug_log := st.(debug_log) |}
  | OnFinish reason =>
      {| assistant_chunks := st.(assistant_chunks); tool_calls := st.(tool_calls);
         finish_reason := Some reason; has_tool_calls := st.(has_tool_calls);
         console := st.(console); debug_log := st.(debug_log) |}
  | OnDebug msg =>
      {| assistant_chunks := st.(assistant_chunks); tool_calls := st.(tool_calls);
         finish_reason := st.(finish_reason); has_tool_calls := st.(has_tool_calls);
         console := st.(console); debug_log := st.(debug_log) ++ [msg] |}
  end.

Definition run_callbacks (evs : list Event) (st : RoundState) : RoundState :=
  fold_left on_event evs st.

Definition _format_assistant_tool_message (tool_calls : list ToolCall) : Message :=
  AssistantToolCalls
    (map (fun call =>
            {| tc_id := call.(tc_id); tc_type := call.(tc_type);
               tc_name := call.(tc_name); tc_arguments := call.(tc_arguments) |})
         tool_calls).

(** What one round of the [while True] loop ends in. *)
Inductive RoundOutcome : Type :=
| Continue (history : list Message)
| Return (content : string) (history : list Message)
| Raise (e : Exn) (history : list Message).

(** What [send_message] ends in; [OutOfFuel] when the rounds allowed by the
    fuel did not reach a [return] or an exception. *)
Inductive Outcome : Type :=
| Returned (content : string) (history : list Message)
| Failed (e : Exn) (history : list Message)
| OutOfFuel (history : list Message).

Section Bot.

(** [json.loads], [None] standing for [JSONDecodeError] (the one exception
    the [except] clause catches; texts on which [json.loads] raises anything
    else are outside this model), and [json.dumps]. *)
Variable json_loads : string -> option JValue.
Variable json_dumps : JValue -> string.

(** [client.chat.completions.create(..., stream=True)]: the fragments the
    upstream model answers with, given the history and the tool schemas. *)
Variable create : list Message -> list ToolRegistry.FunctionSchema -> list Chunk.

(** The module-level [registry] and the [debug] flag of the bot. *)
Variable registry : ToolRegistry.t.
Variable debug : bool.

(** [json.loads(fn["arguments"] or "{}")] with its [except] clause. *)
Definition parse_args (arguments : string) : JValue :=
  match json_loads (Py.str_or arguments "{}") with
  | Some args => args
  | None => JDict []
  end.

(** The loop of [_execute_tool_calls], started with the messages built so
    far.  The first component lists the [registry.execute] calls made. *)
Fixpoint execute_from (calls : list ToolCall) (messages : list Message)
    : list (string * JValue) * Result (list Message) :=
  match calls with
  | [] => ([], Ok messages)
  | call :: rest =>
      let name := call.(tc_name) in
      let args := parse_args call.(tc_arguments) in
      match ToolRegistry.call_execute registry name args with
      | Raised e => ([(name, args)], Raised e)
      | Ok result =>
          let (log, r) :=
            execute_from rest
              (messages ++ [ToolMsg call.(tc_id) name (json_dumps result)]) in
          ((name, args) :: log, r)
      end
  end.

Definition _execute_tool_calls (calls : list ToolCall)
    : list (string * JValue) * Result (list Message) :=
  execute_from calls [].

(** The state of the closures once [handler.handle_stream(stream)] is back. *)
Definition after_stream (history : list Message) : RoundState :=
  run_callbacks
    (StreamHandler.handle_stream true debug
       (create history (ToolRegistry.get_function_schemas registry)))
    round_start.

(** One iteration of [while True]; the second component lists the
    [registry.execute] calls made in it. *)
Definition round (history : list Message) : list (string * JValue) * RoundOutcome :=
  let st := after_stream history in
  if negb (match st.(tool_calls) with [] => true | _ => false end)
     || match st.(finish_reason) with
        | Some r => String.eqb r "tool_calls"
        | None => false
        end
  then
    let history1 := history ++ [_format_assistant_tool_message st.(tool_calls)] in
    match _execute_tool_calls st.(tool_calls) with
    | (log, Raised e) => (log, Raise e history1)
    | (log, Ok tool_messages) => (log, Continue (history1 ++ tool_messages))
    end
  else
    let content := Py.join st.(assistant_chunks) in
    ([], Return content (history ++ [AssistantMsg content])).

Fixpoint rounds (fuel : nat) (history : list Message) : Outcome :=
  match fuel with
  | O => OutOfFuel history
  | S fuel' =>
      match snd (round history) with
      | Continue history' => rounds fuel' history'
      | Return content history' => Returned content history'
      | Raise e history' => Failed e history'
      end
  end.

Definition send_message (fuel : nat) (history : list Message) (user_input : string) : Outcome :=
  rounds fuel (history ++ [UserMsg user_input]).

End Bot.

End Warbot.

(** * Vocabulary of the statements *)

(** ** Lists of first occurrences *)

Section FirstSeen.

Variable A : Type.
Variable eqb : A -> A -> bool.

Definition seen (x : A) (l : list A) : bool := existsb (eqb x) l.

(** The distinct elements of a list, in the order of their first
    appearance. *)
Definition first_seen (l : list A) : list A :=
  fold_left (fun acc x => if seen x acc then acc else acc ++ [x]) l [].

End FirstSeen.

(** ** What a partial call contributes *)

(** The argument text a partial call carries ([EmptyString] when it has
    none). *)
Definition frag_args (c : CallDelta) : string :=
  match c.(call_function) with
  | Some f => match f.(fn_arguments) with Some a => a | None => EmptyString end
  | None => EmptyString
  end.

(** The capability name a partial call carries, when it is not empty. *)
Definition frag_name (c : CallDelta) : option string :=
  match c.(call_function) with
  | Some f =>
      match f.(fn_name) with
      | Some n => if Py.truthy n then Some n else None
      | None => None
      end
  | None => None
  end.

(** The pieces appended to [arguments] by one partial call. *)
Definition args_of (c : CallDelta) : list string :=
  if Py.truthy (frag_args c) then [frag_args c] else [].

(** The name an accumulator holds after a run of partial calls according to
    the rule "the most recent non-empty name": [current] when none of them
    carries one. *)
Definition latest_name (current : string) (deltas : list CallDelta) : string :=
  fold_left (fun n c => match frag_name c with Some n' => n' | None => n end) deltas current.

Definition has_id (k : string) (c : CallDelta) : bool :=
  match c.(call_id) with
  | Some i => String.eqb i k
  | None => false
  end.

Definition has_index (i : Z) (c : CallDelta) : bool := Py.opt_int_eqb c.(call_index) i.

Definition id_of (c : CallDelta) : string :=
  match c.(call_id) with Some i => i | None => EmptyString end.

Definition index_of (c : CallDelta) : Z :=
  match c.(call_index) with Some i => i | None => 0%Z end.

(** The key synthesized from a positional index. *)
Definition idx_key (i : Z) : string := "idx_" ++ Py.str_of_int i.

(** The concatenation, in arrival order, of the argument texts of the
    fragments selected by [sel]. *)
Definition concat_args (sel : CallDelta -> bool) (frs : list CallDelta) : string :=
  String.concat EmptyString (map frag_args (filter sel frs)).

(** ** The resolution order in the words of the specification *)

Definition spec_resolve_key (idx : nat) (call : CallDelta)
    (tool_calls : StreamHandler.tool_calls_t) : string :=
  match call.(call_id) with
  | Some i => i
  | None =>
      match call.(call_index) with
      | Some ci =>
          match find (fun kb => Py.opt_int_eqb (snd kb).(ToolCallBuilder.index) ci) tool_calls with
          | Some kb => fst kb
          | None => idx_key ci
          end
      | None => "call_" ++ Py.str_of_nat idx
      end
  end.

(** The accumulator a partial call is merged into under [key]: the one in
    flight, or a new one made from the call. *)
Definition accumulator_for (key : string) (call : CallDelta)
    (tool_calls : StreamHandler.tool_calls_t) : ToolCallBuilder.t :=
  match Py.get key tool_calls with
  | Some b => b
  | None =>
      ToolCallBuilder.make (Py.or_else call.(call_id) key) call.(call_index)
                           (Py.or_else call.(call_type) "function")
  end.

(** ** Merging under a given key *)

(** The part of [collect_one] that follows the choice of the key. *)
Definition collect_with_key (key : string) (call : CallDelta)
    (tool_calls : StreamHandler.tool_calls_t) : StreamHandler.tool_calls_t :=
  Py.set key (ToolCallBuilder.update (accumulator_for key call tool_calls) call) tool_calls.

Definition collect_keyed (kf : CallDelta -> string) (frs : list CallDelta)
    (tool_calls : StreamHandler.tool_calls_t) : StreamHandler.tool_calls_t :=
  fold_left (fun d c => collect_with_key (kf c) c d) frs tool_calls.

(** ** Streams seen through their first choices *)

(** The partial calls of a chunk that the handler looks at. *)
Definition chunk_calls (chunk : Chunk) : list CallDelta :=
  match chunk.(choices) with
  | [] => []
  | choice :: _ => StreamHandler.delta_calls choice.(delta)
  end.

(** The terminal reason a chunk signals, if any. *)
Definition signals (chunk : Chunk) : option string :=
  match chunk.(choices) with
  | [] => None
  | choice :: _ =>
      match choice.(finish_reason) with
      | Some r => if Py.truthy r then Some r else None
      | None => None
      end
  end.

Definition signals_tool_calls (chunk : Chunk) : bool :=
  match signals chunk with
  | Some r => String.eqb r "tool_calls"
  | None => false
  end.

(** All partial calls of a stream, in arrival order. *)
Definition stream_calls (stream : list Chunk) : list CallDelta :=
  flat_map chunk_calls stream.

(** The partial calls of a batch with their ordinal positions. *)
Fixpoint enumerate_from (idx : nat) (calls : list CallDelta) : list (nat * CallDelta) :=
  match calls with
  | [] => []
  | c :: rest => (idx, c) :: enumerate_from (S idx) rest
  end.

Definition indexed_calls (stream : list Chunk) : list (nat * CallDelta) :=
  flat_map (fun chunk => enumerate_from 0 (chunk_calls chunk)) stream.

Definition collect_indexed (ics : list (nat * CallDelta))
    (tool_calls : StreamHandler.tool_calls_t) : StreamHandler.tool_calls_t :=
  fold_left (fun d ic => StreamHandler.collect_one (fst ic) (snd ic) d) ics tool_calls.

(** The requests passed to [on_tool_call], in order. *)
Definition emitted_calls (evs : list Event) : list ToolCall :=
  flat_map (fun e => match e with OnToolCall c => [c] | _ => [] end) evs.

(** The reasons passed to [on_finish], in order. *)
Definition finish_signals (evs : list Event) : list string :=
  flat_map (fun e => match e with OnFinish r => [r] | _ => [] end) evs.

(** The identifier and the argument text of a request. *)
Definition id_and_arguments (r : ToolCall) : string * string := (r.(tc_id), r.(tc_arguments)).

(** Two chunks that differ at most in their choices after the first. *)
Definition same_head (c1 c2 : Chunk) : Prop :=
  c1.(chunk_fields) = c2.(chunk_fields) /\ hd_error c1.(choices) = hd_error c2.(choices).


(** The tool-role message that answers a request. *)
Definition answers (call : ToolCall) (m : Message) : Prop :=
  exists content, m = ToolMsg call.(tc_id) call.(tc_name) content.


(** The registry call made for a request: its name and its decoded
    arguments. *)
Definition dispatched (json_loads : string -> option JValue) (call : ToolCall)
    : string * JValue :=
  (call.(tc_name), Warbot.parse_args json_loads call.(tc_arguments)).

Definition is_tool_msg (m : Message) : bool :=
  match m with
  | ToolMsg _ _ _ => true
  | _ => false
  end.

(** ** Accumulators described by the fragments merged into them *)

(** A fragment that carries no identifier, or the one it is keyed by. *)
Definition keyed_ok (kf : CallDelta -> string) (c : CallDelta) : Prop :=
  c.(call_id) = None \/ c.(call_id) = Some (kf c).

(** An entry whose accumulator is named after its key and holds exactly the
    argument pieces of the fragments of [frs] keyed by it, in order. *)
Definition entry_ok (kf : CallDelta -> string) (frs : list CallDelta)
    (kb : string * ToolCallBuilder.t) : Prop :=
  ToolCallBuilder.id (snd kb) = fst kb
  /\ ToolCallBuilder.arguments (snd kb)
     = flat_map args_of (filter (fun c => String.eqb (kf c) (fst kb)) frs).

(** The events of a chunk that precede any tool-call batch and completion
    signal: diagnostics, reasoning text and answer text. *)
Definition prelude (on_debug : bool) (chunk : Chunk) : list Event :=
  match chunk.(choices) with
  | [] => if on_debug then [OnDebug DbgNoChoices] else []
  | choice :: _ =>
      (if on_debug then StreamHandler.debug_events choice.(delta) choice else [])
      ++ StreamHandler._emit_thinking choice.(delta) choice chunk
      ++ StreamHandler._emit_content choice.(delta)
  end.

(** The accumulators in flight once the partial calls of a chunk are
    merged. *)
Definition after_chunk (chunk : Chunk) (d : StreamHandler.tool_calls_t)
    : StreamHandler.tool_calls_t :=
  collect_indexed (enumerate_from 0 (chunk_calls chunk)) d.

(** Every accumulator keyed by its own index. *)
Definition index_keyed (d : StreamHandler.tool_calls_t) : Prop :=
  Forall (fun kb => exists i, ToolCallBuilder.index (snd kb) = Some i /\ fst kb = idx_key i) d.

(** The first accumulator is the one synthesized from index [i]. *)
Definition headed_by (i : Z) (d : StreamHandler.tool_calls_t) : Prop :=
  exists b rest, d = (idx_key i, b) :: rest /\ ToolCallBuilder.index b = Some i.

(** ** An identifier that arrives after the index *)

Definition no_id (c : CallDelta) : bool :=
  match c.(call_id) with
  | None => true
  | Some _ => false
  end.

(** A fragment of the call with index [i] and identifier [k]: it carries the
    identifier, or only the index. *)
Definition late_ok (i : Z) (k : string) (c : CallDelta) : Prop :=
  c.(call_id) = Some k \/ (c.(call_id) = None /\ c.(call_index) = Some i).

(** The key such a fragment is merged under. *)
Definition late_key (i : Z) (c : CallDelta) : string :=
  match c.(call_id) with
  | Some x => x
  | None => idx_key i
  end.

(** * Worked inputs *)

(** An attribute-carrying partial call. *)
Definition obj_call (id : option string) (index : option Z) (name args : option string)
    : CallDelta :=
  {| call_is_dict := false; call_id := id; call_type := None; call_index := index;
     call_function := Some {| fn_name := name; fn_arguments := args |} |}.

Definition delta_of (content : option Content) (calls : option (list CallDelta)) : Delta :=
  {| delta_is_dict := false; delta_fields := no_thinking;
     delta_content := content; delta_tool_calls := calls |}.

Definition choice_of (d : Delta) (finish : option string) : Choice :=
  {| delta := d; finish_reason := finish; choice_fields := no_thinking |}.

(** A chunk with a single choice, as the helper of the test suite builds it. *)
Definition chunk_of (d : Delta) (finish : option string) : Chunk :=
  {| choices := [choice_of d finish]; chunk_fields := no_thinking |}.

(** Scenario B of the specification: two fragments with identifier ["1"]. *)
Definition scenario_b_head : list Chunk :=
  [chunk_of (delta_of None
     (Some [obj_call (Some "1") (Some 0%Z) (Some "get_risk") (Some "{")])) None].

Definition scenario_b_last : Chunk :=
  chunk_of (delta_of None (Some [obj_call (Some "1") None None (Some "}")]))
           (Some "tool_calls").

(** Two fragments that carry only the index 0. *)
Definition index_only_head : list Chunk :=
  [chunk_of (delta_of None
     (Some [obj_call None (Some 0%Z) (Some "get_risk") (Some "{")])) None].

Definition index_only_last : Chunk :=
  chunk_of (delta_of None (Some [obj_call None (Some 0%Z) None (Some "}")]))
           (Some "tool_calls").

(** One logical call whose identifier arrives in the second fragment. *)
Definition late_id_head : list Chunk := index_only_head.

Definition late_id_last : Chunk :=
  chunk_of (delta_of None (Some [obj_call (Some "1") (Some 0%Z) None (Some "}")]))
           (Some "tool_calls").

(** Two fragments with the same identifier and different names. *)
Definition renamed_head : list Chunk :=
  [chunk_of (delta_of None
     (Some [obj_call (Some "1") (Some 0%Z) (Some "get_risk") None])) None].

Definition renamed_last : Chunk :=
  chunk_of (delta_of None
     (Some [obj_call (Some "1") (Some 0%Z) (Some "other") None])) (Some "tool_calls").

(** A call that never gets a name, and one that names ["unknown_function"]. *)
Definition nameless_stream : list Chunk :=
  [chunk_of (delta_of None (Some [obj_call (Some "1") (Some 0%Z) None (Some "{}")]))
            (Some "tool_calls")].

Definition named_stream : list Chunk :=
  [chunk_of (delta_of None
     (Some [obj_call (Some "1") (Some 0%Z) (Some "unknown_function") (Some "{}")]))
            (Some "tool_calls")].

(** A chunk whose second choice carries text, a partial call and a terminal
    reason, and the same chunk without it. *)
Definition first_choice : Choice := choice_of (delta_of (Some (ContentStr "a")) None) None.

Definition second_choice : Choice :=
  choice_of (delta_of (Some (ContentStr "b"))
               (Some [obj_call (Some "9") (Some 0%Z) (Some "get_risk") (Some "{}")]))
            (Some "tool_calls").

Definition two_choices : Chunk :=
  {| choices := [first_choice; second_choice]; chunk_fields := no_thinking |}.

Definition one_choice : Chunk :=
  {| choices := [first_choice]; chunk_fields := no_thinking |}.

Definition no_choices : Chunk := {| choices := []; chunk_fields := no_thinking |}.

(** Stray partial calls in a round that ends with [stop]. *)
Definition stray_stream : list Chunk :=
  [chunk_of (delta_of None
     (Some [obj_call (Some "1") (Some 0%Z) (Some "get_risk") (Some "{}")])) None;
   chunk_of (delta_of (Some (ContentStr "done")) None) (Some "stop")].



(** A round that ends with [tool_calls] without any partial call. *)
Definition degenerate_stream : list Chunk :=
  [chunk_of (delta_of (Some (ContentStr "partial")) None) (Some "tool_calls")].

(** Two requests for the dummy tool finalized in one round. *)
Definition two_calls_stream : list Chunk :=
  [chunk_of (delta_of None
     (Some [obj_call (Some "a") (Some 0%Z) (Some "dummy") (Some "{}");
            obj_call (Some "b") (Some 1%Z) (Some "dummy") None])) (Some "tool_calls")].

(** [DummyTool] of the test suite. *)
Definition dummy_tool : ToolRegistry.Tool :=
  {| ToolRegistry.name := "dummy";
     ToolRegistry.description := "A dummy tool";
     ToolRegistry.parameters := JDict [("type", JStr "object"); ("properties", JDict [])];
     ToolRegistry.tool_execute :=
       fun kwargs => Ok (JDict [("ok", JBool true); ("kwargs", JDict kwargs)]) |}.

(** The dictionary [LocationRisksTool.execute] returns for a location. *)
Definition location_result (location : JValue) : JValue :=
  JDict
    [ ("location", location);
      ("risks",
       JList
         [ JDict [ ("category", JStr "armed_conflict"); ("level", JStr "medium");
                   ("notes", JStr "No active conflict nearby.") ];
           JDict [ ("category", JStr "infrastructure"); ("level", JStr "medium");
                   ("notes",
                    JStr "Potential for utilities interruptions; keep backup power and water.") ];
           JDict [ ("category", JStr "digital"); ("level", JStr "medium");
                   ("notes", JStr "Possible internet throttling or outages.") ] ]);
      ("note",
       JStr "Stub data; integrate geocoding and threat intelligence sources for real assessments.") ].

(** [LocationRisksTool]: [execute(self, location)] called with keyword
    arguments.  A keyword other than [location] and a missing [location]
    raise the [TypeError] of the call itself (worded as CPython 3.10 to 3.12
    do); otherwise the stub assessment is returned. *)
Definition location_tool : ToolRegistry.Tool :=
  {| ToolRegistry.name := "assess_location_risks";
     ToolRegistry.description :=
       "Assess risks for a specified location, including proximity to conflicts, infrastructure stability, and other relevant factors.";
     ToolRegistry.parameters :=
       JDict
         [ ("type", JStr "object");
           ("properties",
            JDict
              [ ("location",
                 JDict [ ("type", JStr "string");
                         ("description",
                          JStr "City, country, or coordinates to assess risks for.") ]) ]);
           ("required", JList [JStr "location"]) ];
     ToolRegistry.tool_execute :=
       fun kwargs =>
         match find (fun kv => negb (String.eqb (fst kv) "location")) kwargs with
         | Some kv =>
             Raised (TypeError ("LocationRisksTool.execute() got an unexpected keyword argument '"
                                  ++ fst kv ++ "'"))
         | None =>
             match Py.get "location" kwargs with
             | Some location => Ok (location_result location)
             | None =>
                 Raised (TypeError
                   "LocationRisksTool.execute() missing 1 required positional argument: 'location'")
             end
         end |}.

Definition example_registry : ToolRegistry.t :=
  ToolRegistry.register location_tool (ToolRegistry.register dummy_tool ToolRegistry.empty).

(** The JSON text of an object with the single member [location]. *)
Definition location_payload : string :=
  let quote := String (Ascii.ascii_of_nat 34) EmptyString in
  "{" ++ quote ++ "location" ++ quote ++ ": " ++ quote ++ "Kyiv" ++ quote ++ "}".

(** [json.loads] on the payloads of the worked inputs: the empty object and
    [location_payload] are the only JSON texts among them. *)
Definition example_loads (s : string) : option JValue :=
  if String.eqb s "{}" then Some (JDict [])
  else if String.eqb s location_payload then Some (JDict [("location", JStr "Kyiv")])
  else None.


(** [json.dumps] for values whose strings need no escaping. *)
Fixpoint example_dumps (v : JValue) : string :=
  let quote := String (Ascii.ascii_of_nat 34) EmptyString in
  match v with
  | JNull => "null"
  | JBool true => "true"
  | JBool false => "false"
  | JInt i => Py.str_of_int i
  | JStr s => quote ++ s ++ quote
  | JList items => "[" ++ String.concat ", " (map example_dumps items) ++ "]"
  | JDict entries =>
      "{" ++ String.concat ", "
               (map (fun kv : string * JValue =>
                       let (k, x) := kv in
                       (quote ++ k ++ quote ++ ": " ++ example_dumps x)%string)
                    entries)
          ++ "}"
  end.

(** Upstream models that answer every request with the same stream. *)
Definition always (stream : list Chunk)
    : list Message -> list ToolRegistry.FunctionSchema -> list Chunk :=
  fun _ _ => stream.

Definition start_history : list Message := [SystemMsg "system prompt"; UserMsg "hello"].

From Stdlib Require Import DecimalNat.

(** * Vocabulary of the further properties *)

(** The texts passed to [on_content], in order. *)
Definition content_texts (evs : list Event) : list string :=
  flat_map (fun e => match e with OnContent t => [t] | _ => [] end) evs.

(** The texts passed to [on_thinking], in order. *)
Definition thinking_texts (evs : list Event) : list string :=
  flat_map (fun e => match e with OnThinking t => [t] | _ => [] end) evs.

(** The answer text the handler reads from a chunk. *)
Definition chunk_content (chunk : Chunk) : list Event :=
  match chunk.(choices) with
  | [] => []
  | choice :: _ => StreamHandler._emit_content choice.(delta)
  end.

(** The reasoning text the handler reads from a chunk. *)
Definition chunk_thinking (chunk : Chunk) : list Event :=
  match chunk.(choices) with
  | [] => []
  | choice :: _ => StreamHandler._emit_thinking choice.(delta) choice chunk
  end.

(** A text event carries a non-empty text. *)
Definition text_ok (e : Event) : Prop :=
  match e with
  | OnThinking t => t <> EmptyString
  | OnContent t => t <> EmptyString
  | _ => True
  end.

Definition is_debug (e : Event) : bool :=
  match e with
  | OnDebug _ => true
  | _ => false
  end.

(** The reasons a stream signals, in order. *)
Definition stream_signals (stream : list Chunk) : list string :=
  flat_map (fun ch => match signals ch with Some r => [r] | None => [] end) stream.

(** A request with none of its three strings empty. *)
Definition request_ok (r : ToolCall) : Prop :=
  r.(tc_id) <> EmptyString /\ r.(tc_type) <> EmptyString /\ r.(tc_name) <> EmptyString.

(** Accumulators named after their keys, under distinct non-empty keys. *)
Definition keyed_by_id (d : StreamHandler.tool_calls_t) : Prop :=
  NoDup (Py.keys d)
  /\ Forall (fun kb => ToolCallBuilder.id (snd kb) = fst kb /\ fst kb <> EmptyString) d.

(** A partial call that carries neither an identifier nor an index. *)
Definition anonymous (c : CallDelta) : Prop :=
  c.(call_id) = None /\ c.(call_index) = None.

(** The same delta, as an attribute-carrying object or as a [dict]. *)
Definition with_shape (is_dict : bool) (d : Delta) : Delta :=
  {| delta_is_dict := is_dict; delta_fields := d.(delta_fields);
     delta_content := d.(delta_content); delta_tool_calls := d.(delta_tool_calls) |}.

Definition with_content (c : Content) (d : Delta) : Delta :=
  {| delta_is_dict := d.(delta_is_dict); delta_fields := d.(delta_fields);
     delta_content := Some c; delta_tool_calls := d.(delta_tool_calls) |}.

(** The first of three optional values that is present. *)
Definition first_of3 (A : Type) (a b c : option A) : option A :=
  match a with
  | Some _ => a
  | None => match b with Some _ => b | None => c end
  end.

(** Accumulators whose type is not empty. *)
Definition typed (d : StreamHandler.tool_calls_t) : Prop :=
  Forall (fun kb => ToolCallBuilder.type (snd kb) <> EmptyString) d.

(** The key synthesized from a position in the batch. *)
Definition call_key (idx : nat) : string := "call_" ++ Py.str_of_nat idx.

(** The registry obtained by registering the tools of a list, in order, as
    [_register_default_tools] does. *)
Definition registry_of (tools : list ToolRegistry.Tool) : ToolRegistry.t :=
  fold_left (fun reg tool => ToolRegistry.register tool reg) tools ToolRegistry.empty.

(** The last tool of a list that has the given name. *)
Definition last_named (n : string) (tools : list ToolRegistry.Tool) : option ToolRegistry.Tool :=
  find (fun tool => String.eqb tool.(ToolRegistry.name) n) (rev tools).

(** A second tool under the name of [dummy_tool]. *)
Definition dummy_override : ToolRegistry.Tool :=
  {| ToolRegistry.name := "dummy";
     ToolRegistry.description := "Another dummy tool";
     ToolRegistry.parameters := JDict [("type", JStr "object")];
     ToolRegistry.tool_execute := fun _ => Ok (JStr "overridden") |}.

(** Rounds that ran to their end: the assistant message with the requests,
    followed by one tool-role message per request, in order. *)
Inductive complete_rounds : list Message -> Prop :=
| rounds_none : complete_rounds []
| rounds_more (calls : list ToolCall) (tool_messages rest : list Message) :
    Forall2 answers calls tool_messages ->
    complete_rounds rest ->
    complete_rounds (AssistantToolCalls calls :: tool_messages ++ rest).


(** A request whose dispatch returns. *)
Definition dispatch_returns (json_loads : string -> option JValue)
    (registry : ToolRegistry.t) (call : ToolCall) : Prop :=
  exists result,
    ToolRegistry.call_execute registry call.(tc_name)
      (Warbot.parse_args json_loads call.(tc_arguments)) = Ok result.

(** Two requests, the second for an unregistered capability. *)
Definition second_fails_stream : list Chunk :=
  [chunk_of (delta_of None
     (Some [obj_call (Some "a") (Some 0%Z) (Some "dummy") (Some "{}");
            obj_call (Some "b") (Some 1%Z) (Some "foo") (Some "{}");
            obj_call (Some "c") (Some 2%Z) (Some "dummy") (Some "{}")]))
            (Some "tool_calls")].

(** The same partial call, as an attribute-carrying object or as a [dict]. *)
Definition call_with_shape (is_dict : bool) (c : CallDelta) : CallDelta :=
  {| call_is_dict := is_dict; call_id := c.(call_id); call_type := c.(call_type);
     call_index := c.(call_index); call_function := c.(call_function) |}.

(** ** [config.py] and the settings part of [__main__.py] *)

Module Config.

Definition DEFAULT_MODEL : string := "gpt-5-mini".

Definition API_KEY_ENV_VARS : list string := ["OPENAI_API_KEY"; "OPENAI_APIKEY"].

Record Settings : Type := {
  api_key : string;
  model : string;
  base_url : option string
}.

(** [os.environ]. *)
Definition environ : Type := Py.dict string.

(** [os.getenv(key)] and [os.getenv(key, default)]. *)
Definition getenv (env : environ) (key : string) : option string := Py.get key env.

Definition getenv_default (env : environ) (key default : string) : string :=
  match Py.get key env with
  | Some v => v
  | None => default
  end.

(** The loop of [_get_api_key] over the given variable names. *)
Fixpoint first_set (env : environ) (keys : list string) : option string :=
  match keys with
  | [] => None
  | key :: rest =>
      match getenv env key with
      | Some value => if Py.truthy value then Some value else first_set env rest
      | None => first_set env rest
      end
  end.

Definition _get_api_key (env : environ) : option string := first_set env API_KEY_ENV_VARS.

(** What [load_settings] ends in. *)
Inductive Loaded : Type :=
| Ready (settings : Settings)
| ValueError (msg : string).

Section Load.

(** [load_dotenv()]: the environment once the [.env] file is merged in. *)
Variable load_dotenv : environ -> environ.

Definition load_settings (env : environ) : Loaded :=
  let env := load_dotenv env in
  let api_key := _get_api_key env in
  if negb (Py.truthy_opt api_key) then
    ValueError "OpenAI API key is required. Set OPENAI_API_KEY in environment or .env file."
  else
    let model := getenv_default env "OPENAI_MODEL" DEFAULT_MODEL in
    let base_url := getenv env "OPENAI_BASE_URL" in
    Ready {| api_key := match api_key with Some k => k | None => EmptyString end;
             model := model; base_url := base_url |}.

End Load.

(** The keyword arguments [build_client] gives to [OpenAI(...)]. *)
Record ClientArgs : Type := {
  client_api_key : string;
  client_base_url : option string
}.

Definition build_client (settings : Settings) : ClientArgs :=
  if Py.truthy_opt settings.(base_url)
  then {| client_api_key := settings.(api_key); client_base_url := settings.(base_url) |}
  else {| client_api_key := settings.(api_key); client_base_url := None |}.

End Config.

Module Main.

(** The [argparse.Namespace] of [parse_args]. *)
Record Args : Type := {
  args_model : option string;
  args_base_url : option string;
  args_debug : bool;
  args_question : option string
}.

Definition build_settings (load_dotenv : Config.environ -> Config.environ)
    (args : Args) (env : Config.environ) : Config.Loaded :=
  match Config.load_settings load_dotenv env with
  | Config.ValueError msg => Config.ValueError msg
  | Config.Ready settings =>
      let settings :=
        if Py.truthy_opt args.(args_model)
        then {| Config.api_key := settings.(Config.api_key);
                Config.model :=
                  match args.(args_model) with Some m => m | None => settings.(Config.model) end;
                Config.base_url := settings.(Config.base_url) |}
        else settings in
      let settings :=
        if Py.truthy_opt args.(args_base_url)
        then {| Config.api_key := settings.(Config.api_key);
                Config.model := settings.(Config.model);
                Config.base_url := args.(args_base_url) |}
        else settings in
      Config.Ready settings
  end.

End Main.

(** An environment with an empty primary key variable and a model. *)
Definition example_env : Config.environ :=
  [("OPENAI_API_KEY", EmptyString); ("OPENAI_APIKEY", "sk-test"); ("OPENAI_MODEL", "gpt-x")].

Definition example_args : Main.Args :=
  {| Main.args_model := Some EmptyString; Main.args_base_url := Some "http://localhost";
     Main.args_debug := false; Main.args_question := None |}.

(** * Properties *)

(** ** Strings and dictionaries *)

Lemma truthy_false_iff (s : string) : Py.truthy s = false <-> s = EmptyString.
Proof.
  unfold Py.truthy. destruct s; simpl; split; intro H; try reflexivity; discriminate.
Qed.

Lemma truthy_true_iff (s : string) : Py.truthy s = true <-> s <> EmptyString.
Proof.
  unfold Py.truthy. destruct s; simpl; split; intro H; try reflexivity; try discriminate.
  now contradiction H.
Qed.

Lemma append_empty_r (s : string) : (s ++ EmptyString)%string = s.
Proof. induction s as [|a s IH]; simpl; [reflexivity | now rewrite IH]. Qed.

Lemma append_assoc (a b c : string) : ((a ++ b) ++ c)%string = (a ++ (b ++ c))%string.
Proof. induction a as [|x a IH]; simpl; [reflexivity | now rewrite IH]. Qed.

Lemma join_cons (x : string) (l : list string) :
  Py.join (x :: l) = (x ++ Py.join l)%string.
Proof.
  unfold Py.join. destruct l as [|y l]; simpl.
  - now rewrite append_empty_r.
  - reflexivity.
Qed.

Lemma join_app (l1 l2 : list string) :
  Py.join (l1 ++ l2) = (Py.join l1 ++ Py.join l2)%string.
Proof.
  induction l1 as [|x l1 IH].
  - reflexivity.
  - rewrite <- app_comm_cons, !join_cons, IH. now rewrite append_assoc.
Qed.

Lemma join_args_of (c : CallDelta) : Py.join (args_of c) = frag_args c.
Proof.
  unfold args_of. destruct (Py.truthy (frag_args c)) eqn:E.
  - rewrite join_cons. apply append_empty_r.
  - apply truthy_false_iff in E. now rewrite E.
Qed.

Lemma join_flat_args (l : list CallDelta) :
  Py.join (flat_map args_of l) = String.concat EmptyString (map frag_args l).
Proof.
  induction l as [|c l IH].
  - reflexivity.
  - simpl flat_map. rewrite join_app, join_args_of, IH.
    simpl map. symmetry. apply (join_cons (frag_args c) (map frag_args l)).
Qed.

(** ** C4: what [update] does to the name and to the arguments *)

Lemma update_arguments (self : ToolCallBuilder.t) (c : CallDelta) :
  ToolCallBuilder.arguments (ToolCallBuilder.update self c)
  = ToolCallBuilder.arguments self ++ args_of c.
Proof.
  unfold ToolCallBuilder.update, ToolCallBuilder.update_dict, ToolCallBuilder.update_obj,
    args_of, frag_args.
  destruct (call_is_dict c), (call_function c) as [[n [a|]]|]; simpl;
    try destruct (Py.truthy a); simpl; now rewrite ?app_nil_r.
Qed.

Lemma update_function_name (self : ToolCallBuilder.t) (c : CallDelta) :
  ToolCallBuilder.function_name (ToolCallBuilder.update self c)
  = match frag_name c with
    | Some n => n
    | None => ToolCallBuilder.function_name self
    end.
Proof.
  unfold ToolCallBuilder.update, ToolCallBuilder.update_dict, ToolCallBuilder.update_obj,
    frag_name, Py.truthy_opt, Py.or_else.
  destruct (call_is_dict c), (call_function c) as [[[n|] a]|]; simpl;
    try destruct (Py.truthy n); reflexivity.
Qed.

Lemma update_index (self : ToolCallBuilder.t) (c : CallDelta) (i : Z) :
  ToolCallBuilder.index self = Some i ->
  ToolCallBuilder.index (ToolCallBuilder.update self c) = Some i.
Proof.
  intro H.
  unfold ToolCallBuilder.update, ToolCallBuilder.update_dict, ToolCallBuilder.update_obj.
  destruct (call_is_dict c), (call_function c); simpl; rewrite ?H; reflexivity.
Qed.

Lemma update_id (self : ToolCallBuilder.t) (c : CallDelta) :
  ToolCallBuilder.id self <> EmptyString ->
  ToolCallBuilder.id (ToolCallBuilder.update self c) = ToolCallBuilder.id self.
Proof.
  intro H. apply truthy_true_iff in H.
  unfold ToolCallBuilder.update, ToolCallBuilder.update_dict, ToolCallBuilder.update_obj.
  destruct (call_is_dict c), (call_function c); simpl; rewrite ?H; reflexivity.
Qed.

(** C4 (as the code has it).  After any run of fragments merged into one
    accumulator, its capability name is the most recent non-empty name among
    them (the one it had when none carries a name), and its argument pieces
    are the ones it had followed by the non-empty argument texts of the
    fragments, in arrival order: pieces are appended, never replaced. *)
Theorem update_name_latest_arguments_appended
    (deltas : list CallDelta) (self : ToolCallBuilder.t) :
  let self' := fold_left ToolCallBuilder.update deltas self in
  ToolCallBuilder.function_name self' = latest_name (ToolCallBuilder.function_name self) deltas
  /\ ToolCallBuilder.arguments self' = ToolCallBuilder.arguments self ++ flat_map args_of deltas.
Proof.
  revert self. induction deltas as [|c deltas IH]; intro self; simpl.
  - now rewrite app_nil_r.
  - destruct (IH (ToolCallBuilder.update self c)) as [Hn Ha]. split.
    + rewrite Hn. unfold latest_name. simpl. now rewrite update_function_name.
    + rewrite Ha, update_arguments. now rewrite app_assoc.
Qed.

(** ** Insertion-ordered dictionaries *)

Section DictFacts.

Variable V : Type.
Implicit Types (d : Py.dict V) (k : string) (v : V).

Lemma get_set_same k v d : Py.get k (Py.set k v d) = Some v.
Proof.
  induction d as [|[k' v'] d IH]; simpl.
  - now rewrite String.eqb_refl.
  - destruct (String.eqb k k') eqn:E; simpl; rewrite E; [reflexivity | exact IH].
Qed.

Lemma get_set_other k k' v d : k <> k' -> Py.get k' (Py.set k v d) = Py.get k' d.
Proof.
  intro Hne. induction d as [|[k0 v0] d IH]; simpl.
  - destruct (String.eqb_spec k' k); [now subst | reflexivity].
  - destruct (String.eqb_spec k k0) as [E|Hk]; simpl.
    + subst k0. destruct (String.eqb_spec k' k) as [E'|_]; [now subst | reflexivity].
    + now rewrite IH.
Qed.

Lemma set_set k v v' d : Py.set k v' (Py.set k v d) = Py.set k v' d.
Proof.
  induction d as [|[k0 v0] d IH]; simpl.
  - now rewrite String.eqb_refl.
  - destruct (String.eqb k k0) eqn:E; simpl; rewrite E; [reflexivity | now rewrite IH].
Qed.

Lemma contains_in_keys k d : Py.contains k d = true <-> In k (Py.keys d).
Proof.
  unfold Py.contains. induction d as [|[k0 v0] d IH]; simpl.
  - split; [discriminate | tauto].
  - destruct (String.eqb_spec k k0) as [->|Hk].
    + split; auto.
    + rewrite IH. split; [auto | intros [H|H]; [now subst | exact H]].
Qed.

Lemma get_none_not_in k d : Py.get k d = None <-> ~ In k (Py.keys d).
Proof.
  rewrite <- contains_in_keys. unfold Py.contains.
  destruct (Py.get k d); split; intro H; try discriminate; try reflexivity.
  now contradiction H.
Qed.

Lemma keys_set_known k v d : In k (Py.keys d) -> Py.keys (Py.set k v d) = Py.keys d.
Proof.
  induction d as [|[k0 v0] d IH]; simpl; intro H.
  - contradiction.
  - destruct (String.eqb_spec k k0) as [->|Hk]; simpl.
    + reflexivity.
    + f_equal. apply IH. destruct H as [H|H]; [now subst | exact H].
Qed.

Lemma keys_set_new k v d : ~ In k (Py.keys d) -> Py.keys (Py.set k v d) = Py.keys d ++ [k].
Proof.
  induction d as [|[k0 v0] d IH]; simpl; intro H.
  - reflexivity.
  - destruct (String.eqb_spec k k0) as [->|Hk]; simpl.
    + contradiction H. now left.
    + f_equal. apply IH. intro Hin. apply H. now right.
Qed.

Lemma set_known_split k v d :
  In k (Py.keys d) ->
  exists d1 v0 d2,
    d = d1 ++ (k, v0) :: d2 /\ ~ In k (Py.keys d1)
    /\ Py.set k v d = d1 ++ (k, v) :: d2 /\ Py.get k d = Some v0.
Proof.
  induction d as [|[k0 v0] d IH]; simpl; intro H.
  - contradiction.
  - destruct (String.eqb_spec k k0) as [->|Hk].
    + exists [], v0, d. simpl. repeat split; auto.
    + destruct IH as (d1 & w & d2 & E1 & Hn & E2 & E3).
      { destruct H as [H|H]; [now subst | exact H]. }
      exists ((k0, v0) :: d1), w, d2. simpl. rewrite <- E1, E2.
      repeat split; auto. intros [H'|H']; [now subst | now apply Hn].
Qed.

Lemma set_new k v d : ~ In k (Py.keys d) -> Py.set k v d = d ++ [(k, v)].
Proof.
  induction d as [|[k0 v0] d IH]; simpl; intro H.
  - reflexivity.
  - destruct (String.eqb_spec k k0) as [->|Hk].
    + contradiction H. now left.
    + f_equal. apply IH. intro Hin. apply H. now right.
Qed.

End DictFacts.

(** ** C5: the key a partial call is merged under *)

Lemma find_by_index_find (ci : Z) (d : StreamHandler.tool_calls_t) :
  StreamHandler.find_by_index ci d
  = option_map fst (find (fun kb => Py.opt_int_eqb (snd kb).(ToolCallBuilder.index) ci) d).
Proof.
  induction d as [|[k b] d IH]; simpl.
  - reflexivity.
  - destruct (Py.opt_int_eqb (ToolCallBuilder.index b) ci); [reflexivity | exact IH].
Qed.

Lemma collect_one_with_key (idx : nat) (call : CallDelta) (d : StreamHandler.tool_calls_t) :
  StreamHandler.collect_one idx call d
  = collect_with_key (StreamHandler.resolve_key idx call d) call d.
Proof.
  unfold StreamHandler.collect_one, collect_with_key, accumulator_for,
    StreamHandler.getitem, Py.contains.
  set (key := StreamHandler.resolve_key idx call d).
  destruct (Py.get key d) as [b|] eqn:E.
  - now rewrite E.
  - now rewrite get_set_same, set_set.
Qed.

(** The source's successive assignments to [key] give the key of the
    specification's four steps. *)
Lemma resolve_key_spec (idx : nat) (call : CallDelta) (d : StreamHandler.tool_calls_t) :
  StreamHandler.resolve_key idx call d = spec_resolve_key idx call d.
Proof.
  unfold StreamHandler.resolve_key, spec_resolve_key, idx_key.
  destruct (call_id call) as [i|], (call_index call) as [ci|]; try reflexivity.
  rewrite find_by_index_find.
  now destruct (find _ d).
Qed.

(** C5 (as the code has it).  The key a partial call merges under is the one
    the four steps give: its identifier when it has one; otherwise the key
    of the first in-flight accumulator whose stored index equals its index;
    otherwise the key [idx_<index>]; otherwise the key [call_<position>],
    which depends on the position in the batch alone.  A synthesized key is
    not necessarily new: when an accumulator is in flight under the key the
    call is merged into it and no accumulator is added; only otherwise is a
    new accumulator appended.  The accumulators under all other keys are
    left as they were. *)
Theorem resolve_key_order_and_reuse (idx : nat) (call : CallDelta)
    (d : StreamHandler.tool_calls_t) :
  let key := StreamHandler.resolve_key idx call d in
  let d' := StreamHandler.collect_one idx call d in
  key = spec_resolve_key idx call d
  /\ (anonymous call -> key = call_key idx)
  /\ Py.keys d' = (if Py.contains key d then Py.keys d else Py.keys d ++ [key])
  /\ Py.get key d'
     = Some (ToolCallBuilder.update
               match Py.get key d with
               | Some b => b
               | None =>
                   ToolCallBuilder.make (Py.or_else call.(call_id) key) call.(call_index)
                                        (Py.or_else call.(call_type) "function")
               end call)
  /\ (forall k, k <> key -> Py.get k d' = Py.get k d).
Proof.
  intros key d'. subst d'. rewrite collect_one_with_key. fold key.
  unfold collect_with_key, accumulator_for.
  split; [apply resolve_key_spec | split; [|split; [|split]]].
  - intros [Hid Hix]. subst key. unfold StreamHandler.resolve_key, call_key.
    now rewrite Hid, Hix.
  - destruct (Py.contains key d) eqn:E.
    + apply keys_set_known. now apply contains_in_keys.
    + apply keys_set_new. intro Hin. apply contains_in_keys in Hin. congruence.
  - apply get_set_same.
  - intros k Hk. apply get_set_other. now apply not_eq_sym.
Qed.

(** A second call without identifier and index at position 0: merged under
    the key already in flight, the accumulators of other keys untouched. *)
Lemma resolve_key_order_and_reuse_witness :
  let d := StreamHandler.collect_one 0 (obj_call None None (Some "get_risk") (Some "{")) [] in
  let second := obj_call None None None (Some "}") in
  StreamHandler.resolve_key 0 second d = call_key 0
  /\ Py.get "other" (StreamHandler.collect_one 0 second d) = Py.get "other" d.
Proof.
  intros d second.
  destruct (resolve_key_order_and_reuse 0 second d) as (_ & Hanon & _ & _ & Hother).
  split.
  - apply Hanon. split; reflexivity.
  - apply Hother. discriminate.
Defined.

(** C5, refuted as stated: the keys synthesized in steps 3 and 4 are not
    fresh.  A call without identifier and index at position 0 of a second
    chunk gets the key ["call_0"] that the first chunk's call is held under,
    so the two chunks end in one request; and a call with index 0 and no
    identifier gets the key ["idx_0"] although an accumulator created for
    the identifier ["idx_0"] (whose index is not 0) is held under it. *)
Lemma synthesized_key_is_reused :
  let first := obj_call None None (Some "get_risk") (Some "{") in
  let second := obj_call None None None (Some "}") in
  let d := StreamHandler.collect_one 0 first [] in
  let named := obj_call (Some "idx_0") None (Some "get_risk") None in
  let indexed := obj_call None (Some 0%Z) None (Some "{}") in
  let d3 := StreamHandler.collect_one 0 named [] in
  StreamHandler.resolve_key 0 second d = "call_0"
  /\ Py.contains "call_0" d = true
  /\ Py.keys (StreamHandler.collect_one 0 second d) = ["call_0"]
  /\ emitted_calls
       (StreamHandler.handle_stream true false
          [ chunk_of (delta_of None (Some [first])) None;
            chunk_of (delta_of None (Some [second])) (Some "tool_calls") ])
     = [ {| tc_id := "call_0"; tc_type := "function"; tc_name := "get_risk";
            tc_arguments := "{}" |} ]
  /\ StreamHandler.find_by_index 0 d3 = None
  /\ StreamHandler.resolve_key 0 indexed d3 = "idx_0"
  /\ Py.contains "idx_0" d3 = true
  /\ Py.keys (StreamHandler.collect_one 0 indexed d3) = ["idx_0"].
Proof. repeat split. Qed.

(** ** First occurrences *)

Section FirstSeenFacts.

Variable A : Type.
Variable eqb : A -> A -> bool.
Hypothesis eqb_eq : forall x y, eqb x y = true <-> x = y.

Lemma seen_in (x : A) (l : list A) : seen eqb x l = true <-> In x l.
Proof.
  unfold seen. rewrite existsb_exists. split.
  - intros (y & Hy & E). apply eqb_eq in E. now subst.
  - intro H. exists x. split; [exact H | now apply eqb_eq].
Qed.

Lemma first_seen_snoc (l : list A) (x : A) :
  first_seen eqb (l ++ [x])
  = if seen eqb x (first_seen eqb l) then first_seen eqb l else first_seen eqb l ++ [x].
Proof. unfold first_seen. now rewrite fold_left_app. Qed.

Lemma first_seen_in (l : list A) (x : A) : In x (first_seen eqb l) <-> In x l.
Proof.
  revert x. induction l as [|y l IH] using rev_ind; intro x.
  - reflexivity.
  - rewrite first_seen_snoc, in_app_iff. simpl.
    destruct (seen eqb y (first_seen eqb l)) eqn:E.
    + apply seen_in, IH in E. rewrite IH. split; [tauto|].
      intros [H|[H|[]]]; [exact H | now subst].
    + rewrite in_app_iff, IH. simpl. tauto.
Qed.

Lemma first_seen_nodup (l : list A) : NoDup (first_seen eqb l).
Proof.
  induction l as [|y l IH] using rev_ind.
  - constructor.
  - rewrite first_seen_snoc. destruct (seen eqb y (first_seen eqb l)) eqn:E.
    + exact IH.
    + apply NoDup_app; [exact IH | repeat constructor; auto |].
      intros a Ha [Hb|[]]. subst a. apply seen_in in Ha. congruence.
Qed.

End FirstSeenFacts.

Lemma seen_map (A B : Type) (eqa : A -> A -> bool) (eqb' : B -> B -> bool)
    (f : A -> B) :
  (forall x y, eqb' (f x) (f y) = eqa x y) ->
  forall y r, seen eqb' (f y) (map f r) = seen eqa y r.
Proof.
  intros Hf y r. unfold seen. induction r as [|z r IHr]; simpl.
  - reflexivity.
  - now rewrite Hf, IHr.
Qed.

Lemma first_seen_map (A B : Type) (eqa : A -> A -> bool) (eqb' : B -> B -> bool)
    (f : A -> B) :
  (forall x y, eqb' (f x) (f y) = eqa x y) ->
  forall l, first_seen eqb' (map f l) = map f (first_seen eqa l).
Proof.
  intros Hf l. induction l as [|y l IH] using rev_ind.
  - reflexivity.
  - rewrite map_app. simpl map. rewrite !first_seen_snoc, IH.
    rewrite (seen_map eqa eqb' f Hf). destruct (seen eqa y (first_seen eqa l)).
    + reflexivity.
    + now rewrite map_app.
Qed.

(** ** Merging under a key function *)

Section Keyed.

Variable kf : CallDelta -> string.

Lemma update_id_keyed (self : ToolCallBuilder.t) (c : CallDelta) (k : string) :
  ToolCallBuilder.id self = k ->
  call_id c = None \/ call_id c = Some k ->
  ToolCallBuilder.id (ToolCallBuilder.update self c) = k.
Proof.
  intros Hid Hc.
  destruct (Py.truthy (ToolCallBuilder.id self)) eqn:T.
  - rewrite update_id; [exact Hid | now apply truthy_true_iff].
  - assert (Hk : Py.truthy k = false) by now rewrite <- Hid.
    unfold ToolCallBuilder.update, ToolCallBuilder.update_dict, ToolCallBuilder.update_obj.
    destruct Hc as [Hc|Hc]; rewrite Hc;
      destruct (call_is_dict c), (call_function c); simpl; rewrite ?T, ?Hk; simpl; assumption.
Qed.

Lemma or_else_keyed (c : CallDelta) (k : string) :
  call_id c = None \/ call_id c = Some k -> Py.or_else (call_id c) k = k.
Proof.
  intros [H|H]; rewrite H; simpl; [reflexivity | now destruct (Py.truthy k)].
Qed.

Lemma entry_ok_other (frs : list CallDelta) (c : CallDelta) (kb : string * ToolCallBuilder.t) :
  fst kb <> kf c -> entry_ok kf frs kb -> entry_ok kf (frs ++ [c]) kb.
Proof.
  intros Hne [Hid Ha]. split; [exact Hid|].
  rewrite filter_app. simpl.
  destruct (String.eqb_spec (kf c) (fst kb)) as [E|_]; [now contradiction Hne|].
  now rewrite app_nil_r.
Qed.

Lemma filter_none (k : string) (frs : list CallDelta) :
  ~ In k (map kf frs) -> filter (fun c => String.eqb (kf c) k) frs = [].
Proof.
  induction frs as [|c frs IH]; simpl; intro H.
  - reflexivity.
  - destruct (String.eqb_spec (kf c) k) as [E|_].
    + contradiction H. now left.
    + apply IH. intro Hin. apply H. now right.
Qed.

Lemma collect_keyed_spec (frs : list CallDelta) :
  Forall (keyed_ok kf) frs ->
  Py.keys (collect_keyed kf frs []) = first_seen String.eqb (map kf frs)
  /\ Forall (entry_ok kf frs) (collect_keyed kf frs []).
Proof.
  induction frs as [|c frs IH] using rev_ind; intro Hok.
  - split; [reflexivity | constructor].
  - apply Forall_app in Hok. destruct Hok as [Hok Hc].
    inversion Hc as [|? ? Hc' _]; subst. clear Hc.
    destruct (IH Hok) as [Hkeys Hent]. clear IH.
    unfold collect_keyed in *. rewrite fold_left_app. simpl.
    set (d := fold_left (fun d c => collect_with_key (kf c) c d) frs []) in *.
    rewrite map_app. simpl map. rewrite first_seen_snoc, <- Hkeys.
    assert (Hnd : NoDup (Py.keys d)).
    { rewrite Hkeys. apply first_seen_nodup, String.eqb_eq. }
    unfold collect_with_key, accumulator_for.
    destruct (seen String.eqb (kf c) (Py.keys d)) eqn:S.
    + apply (seen_in String.eqb String.eqb_eq) in S.
      destruct (set_known_split (kf c)
                  (ToolCallBuilder.update
                     match Py.get (kf c) d with
                     | Some b => b
                     | None =>
                         ToolCallBuilder.make (Py.or_else (call_id c) (kf c)) (call_index c)
                           (Py.or_else (call_type c) "function")
                     end c) d S)
        as (d1 & v0 & d2 & Ed & Hn1 & Eset & Eget).
      rewrite keys_set_known by exact S. split; [reflexivity|].
      rewrite Eset, Eget. rewrite Ed in Hent, Hnd.
      apply Forall_app in Hent. destruct Hent as [H1 H2].
      inversion H2 as [|? ? [Hid Ha] H2']; subst.
      unfold Py.keys in Hnd. rewrite map_app in Hnd. simpl in Hnd.
      apply NoDup_remove_2 in Hnd.
      apply Forall_app. split; [|constructor].
      * apply Forall_forall. intros kb Hin. apply entry_ok_other.
        -- intro E. apply Hn1. rewrite <- E. unfold Py.keys. now apply in_map.
        -- rewrite Forall_forall in H1. now apply H1.
      * split; simpl in *.
        -- now apply update_id_keyed.
        -- rewrite update_arguments, Ha, filter_app, flat_map_app. simpl.
           rewrite String.eqb_refl. simpl. now rewrite app_nil_r.
      * apply Forall_forall. intros kb Hin. apply entry_ok_other.
        -- intro E. apply Hnd, in_or_app. right. rewrite <- E. now apply in_map.
        -- rewrite Forall_forall in H2'. now apply H2'.
    + assert (Hnot : ~ In (kf c) (Py.keys d)).
      { intro Hin. apply (seen_in String.eqb String.eqb_eq) in Hin. congruence. }
      rewrite keys_set_new by exact Hnot. split; [reflexivity|].
      rewrite set_new by exact Hnot.
      apply (get_none_not_in (kf c) d) in Hnot as Hget. rewrite Hget.
      apply Forall_app. split; [|constructor; [|constructor]].
      * apply Forall_forall. intros kb Hin. apply entry_ok_other.
        -- intro E. apply Hnot. rewrite <- E. unfold Py.keys. now apply in_map.
        -- rewrite Forall_forall in Hent. now apply Hent.
      * split; simpl.
        -- apply update_id_keyed; [|exact Hc']. simpl. now apply or_else_keyed.
        -- rewrite update_arguments, filter_app. simpl.
           rewrite String.eqb_refl, filter_none; [simpl; now rewrite app_nil_r|].
           rewrite Hkeys in Hnot. intro Hin. apply Hnot.
           now apply (first_seen_in String.eqb String.eqb_eq).
Qed.

(** What the accumulators are finalized into, read off the fragments. *)
Lemma collect_keyed_requests (frs : list CallDelta) :
  Forall (keyed_ok kf) frs ->
  map (fun b => id_and_arguments (ToolCallBuilder.to_dict b))
      (Py.values (collect_keyed kf frs []))
  = map (fun k => (Py.str_or k "call", concat_args (fun c => String.eqb (kf c) k) frs))
        (first_seen String.eqb (map kf frs)).
Proof.
  intro Hok. destruct (collect_keyed_spec Hok) as [Hkeys Hent].
  rewrite <- Hkeys. unfold Py.values, Py.keys. rewrite !map_map.
  apply map_ext_in. intros kb Hin.
  rewrite Forall_forall in Hent. destruct (Hent kb Hin) as [Hid Ha].
  unfold id_and_arguments, ToolCallBuilder.to_dict, concat_args. simpl.
  now rewrite Hid, Ha, join_flat_args.
Qed.

End Keyed.

(** ** Decimal rendering is injective *)

Lemma str_of_int_inj (x y : Z) : Py.str_of_int x = Py.str_of_int y -> x = y.
Proof.
  unfold Py.str_of_int. intro H.
  assert (Hx : forall z, NilZero.int_of_string (NilZero.string_of_int (Z.to_int z))
                         = Some (Z.to_int z)).
  { intro z. apply NilZero.isi; destruct z; simpl; try discriminate;
      intro E; injection E as E; now apply DecimalPos.Unsigned.to_uint_nonnil in E. }
  apply DecimalZ.to_int_inj.
  pose proof (Hx x) as H1. rewrite H, Hx in H1. now injection H1.
Qed.

Lemma idx_key_eqb (x y : Z) : String.eqb (idx_key x) (idx_key y) = Z.eqb x y.
Proof.
  destruct (Z.eqb_spec x y) as [->|Hne].
  - apply String.eqb_refl.
  - apply String.eqb_neq. unfold idx_key. intro E. simpl in E.
    injection E as E. now apply str_of_int_inj in E.
Qed.

(** ** The shape of what [handle_stream] emits *)

Lemma collect_from_indexed (n : nat) (calls : list CallDelta) (d : StreamHandler.tool_calls_t) :
  StreamHandler.collect_from n calls d = collect_indexed (enumerate_from n calls) d.
Proof.
  revert n d. induction calls as [|c calls IH]; intros n d; simpl.
  - reflexivity.
  - apply IH.
Qed.

Lemma collect_tool_calls_indexed (dl : Delta) (d : StreamHandler.tool_calls_t) :
  StreamHandler._collect_tool_calls dl d
  = collect_indexed (enumerate_from 0 (StreamHandler.delta_calls dl)) d.
Proof.
  unfold StreamHandler._collect_tool_calls.
  destruct (StreamHandler.delta_calls dl) as [|c calls] eqn:E.
  - reflexivity.
  - apply collect_from_indexed.
Qed.

Lemma collect_indexed_app (l1 l2 : list (nat * CallDelta)) (d : StreamHandler.tool_calls_t) :
  collect_indexed (l1 ++ l2) d = collect_indexed l2 (collect_indexed l1 d).
Proof. unfold collect_indexed. apply fold_left_app. Qed.

Lemma enumerate_from_snd (n : nat) (calls : list CallDelta) :
  map snd (enumerate_from n calls) = calls.
Proof.
  revert n. induction calls as [|c calls IH]; intro n; simpl; [reflexivity | now rewrite IH].
Qed.

Lemma indexed_calls_snd (stream : list Chunk) :
  map snd (indexed_calls stream) = stream_calls stream.
Proof.
  unfold indexed_calls, stream_calls. induction stream as [|ch stream IH]; simpl.
  - reflexivity.
  - now rewrite map_app, enumerate_from_snd, IH.
Qed.

Lemma emitted_calls_app (e1 e2 : list Event) :
  emitted_calls (e1 ++ e2) = emitted_calls e1 ++ emitted_calls e2.
Proof. apply flat_map_app. Qed.

Lemma finish_signals_app (e1 e2 : list Event) :
  finish_signals (e1 ++ e2) = finish_signals e1 ++ finish_signals e2.
Proof. apply flat_map_app. Qed.

Lemma emitted_calls_batch (d : StreamHandler.tool_calls_t) :
  emitted_calls (StreamHandler._emit_tool_calls d)
  = map ToolCallBuilder.to_dict (Py.values d).
Proof.
  unfold StreamHandler._emit_tool_calls. induction (Py.values d) as [|b l IH]; simpl.
  - reflexivity.
  - now rewrite <- IH.
Qed.

Lemma finish_signals_batch (d : StreamHandler.tool_calls_t) :
  finish_signals (StreamHandler._emit_tool_calls d) = [].
Proof.
  unfold StreamHandler._emit_tool_calls. now induction (Py.values d) as [|b l IH].
Qed.

Lemma prelude_quiet (on_debug : bool) (chunk : Chunk) :
  emitted_calls (prelude on_debug chunk) = [] /\ finish_signals (prelude on_debug chunk) = [].
Proof.
  unfold prelude. destruct (choices chunk) as [|choice others].
  - now destruct on_debug.
  - rewrite !emitted_calls_app, !finish_signals_app.
    assert (Hd : emitted_calls (if on_debug
                                then StreamHandler.debug_events (delta choice) choice
                                else []) = []
                 /\ finish_signals (if on_debug
                                    then StreamHandler.debug_events (delta choice) choice
                                    else []) = []).
    { destruct on_debug; [|now split]. unfold StreamHandler.debug_events.
      rewrite !emitted_calls_app, !finish_signals_app.
      destruct (delta_is_dict (delta choice)), (thinking (delta_fields (delta choice)));
        try destruct (StreamHandler.thinking_truthy _);
        destruct (StreamHandler.delta_calls (delta choice));
        destruct (finish_reason choice) as [r|]; try destruct (Py.truthy r); now split. }
    destruct Hd as [-> ->].
    unfold StreamHandler._emit_thinking, StreamHandler._emit_content.
    destruct (StreamHandler.find_thinking (delta choice) choice chunk) as [v|];
      try destruct (Py.truthy (StreamHandler.thinking_text v));
      destruct (if delta_is_dict (delta choice) then None else delta_content (delta choice))
        as [c|];
      try destruct (StreamHandler.content_truthy c);
      try destruct (Py.truthy _); now split.
Qed.

(** One iteration of the loop, by the terminal reason the chunk signals. *)
Lemma handle_chunk_shape (on_finish on_debug : bool) (chunk : Chunk)
    (d : StreamHandler.tool_calls_t) :
  StreamHandler.handle_chunk on_finish on_debug chunk d
  = match signals chunk with
    | None => (prelude on_debug chunk, after_chunk chunk d)
    | Some r =>
        (prelude on_debug chunk
           ++ (if String.eqb r "tool_calls"
               then StreamHandler._emit_tool_calls (after_chunk chunk d) else [])
           ++ (if on_finish then [OnFinish r] else []),
         [])
    end.
Proof.
  unfold StreamHandler.handle_chunk, signals, prelude, after_chunk, chunk_calls.
  destruct (choices chunk) as [|choice others].
  - reflexivity.
  - rewrite collect_tool_calls_indexed.
    destruct (finish_reason choice) as [r|]; [destruct (Py.truthy r)|];
      now rewrite <- ?app_assoc.
Qed.

Lemma handle_from_app (on_finish on_debug : bool) (s1 s2 : list Chunk)
    (d : StreamHandler.tool_calls_t) :
  Forall (fun ch => signals ch = None) s1 ->
  StreamHandler.handle_from on_finish on_debug (s1 ++ s2) d
  = flat_map (prelude on_debug) s1
    ++ StreamHandler.handle_from on_finish on_debug s2 (collect_indexed (indexed_calls s1) d).
Proof.
  intro Hq. revert d. induction Hq as [|ch s1 Hch Hq IH]; intro d; simpl.
  - reflexivity.
  - rewrite handle_chunk_shape, Hch, IH.
    unfold indexed_calls at 2. simpl. rewrite collect_indexed_app, <- app_assoc.
    reflexivity.
Qed.

Lemma flat_prelude_quiet (on_debug : bool) (s : list Chunk) :
  emitted_calls (flat_map (prelude on_debug) s) = []
  /\ finish_signals (flat_map (prelude on_debug) s) = [].
Proof.
  induction s as [|ch s [IH1 IH2]]; simpl.
  - now split.
  - rewrite emitted_calls_app, finish_signals_app, IH1, IH2.
    now destruct (prelude_quiet on_debug ch) as [-> ->].
Qed.

(** The batch emitted when a stream that signalled nothing so far ends in a
    chunk signalling [tool_calls]. *)
Lemma emitted_at_completion (on_finish on_debug : bool) (stream : list Chunk) (last : Chunk) :
  Forall (fun ch => signals ch = None) stream ->
  signals last = Some "tool_calls" ->
  emitted_calls (StreamHandler.handle_stream on_finish on_debug (stream ++ [last]))
  = map ToolCallBuilder.to_dict
        (Py.values (collect_indexed (indexed_calls (stream ++ [last])) [])).
Proof.
  intros Hq Hl. unfold StreamHandler.handle_stream.
  rewrite handle_from_app by exact Hq. simpl.
  rewrite handle_chunk_shape, Hl. simpl. rewrite app_nil_r.
  rewrite !emitted_calls_app, emitted_calls_batch.
  destruct (flat_prelude_quiet on_debug stream) as [-> _].
  destruct (prelude_quiet on_debug last) as [-> _].
  simpl. unfold after_chunk, indexed_calls.
  rewrite flat_map_app, collect_indexed_app. simpl. rewrite !app_nil_r.
  destruct on_finish; simpl; now rewrite app_nil_r.
Qed.

(** ** From the resolution of keys to a key function *)

Lemma collect_indexed_keyed (kf : CallDelta -> string) (Q : CallDelta -> Prop)
    (Inv : StreamHandler.tool_calls_t -> Prop) :
  (forall n c d, Q c -> Inv d ->
     StreamHandler.resolve_key n c d = kf c /\ Inv (collect_with_key (kf c) c d)) ->
  forall ics d, Forall Q (map snd ics) -> Inv d ->
  collect_indexed ics d = collect_keyed kf (map snd ics) d.
Proof.
  intros Hstep ics. induction ics as [|[n c] ics IH]; intros d HQ HI; simpl.
  - reflexivity.
  - inversion HQ as [|? ? Hc HQ']; subst.
    destruct (Hstep n c d Hc HI) as [Hk HI'].
    unfold collect_indexed, collect_keyed in *. simpl.
    rewrite collect_one_with_key, Hk. now apply IH.
Qed.

Lemma concat_args_ext (f g : CallDelta -> bool) (frs : list CallDelta) :
  (forall c, In c frs -> f c = g c) -> concat_args f frs = concat_args g frs.
Proof.
  intro H. unfold concat_args. f_equal. f_equal. now apply filter_ext_in.
Qed.

Lemma forall_set (P : string * ToolCallBuilder.t -> Prop) (k : string)
    (v : ToolCallBuilder.t) (d : StreamHandler.tool_calls_t) :
  Forall P d -> P (k, v) -> Forall P (Py.set k v d).
Proof.
  intros Hd Hv. induction Hd as [|[k0 v0] d H0 Hd IH]; simpl.
  - now constructor.
  - destruct (String.eqb_spec k k0) as [->|_]; constructor; auto.
Qed.

Lemma get_some_in (k : string) (b : ToolCallBuilder.t) (d : StreamHandler.tool_calls_t) :
  Py.get k d = Some b -> In (k, b) d.
Proof.
  induction d as [|[k0 v0] d IH]; simpl; intro H.
  - discriminate.
  - destruct (String.eqb_spec k k0) as [->|_].
    + injection H as ->. now left.
    + right. now apply IH.
Qed.

Lemma find_by_index_keyed (ci : Z) (d : StreamHandler.tool_calls_t) (k : string) :
  index_keyed d -> StreamHandler.find_by_index ci d = Some k -> k = idx_key ci.
Proof.
  unfold index_keyed. intro Hd. induction Hd as [|[k0 b0] d (i & Hi & Hk) Hd IH]; simpl.
  - discriminate.
  - simpl in Hi, Hk. rewrite Hi. simpl. destruct (Z.eqb_spec i ci) as [->|_].
    + intro E. injection E as <-. exact Hk.
    + exact IH.
Qed.

(** Identifier-keyed fragments: the key is the identifier. *)
Lemma resolve_by_id (n : nat) (c : CallDelta) (d : StreamHandler.tool_calls_t) :
  call_id c <> None -> StreamHandler.resolve_key n c d = id_of c.
Proof.
  unfold StreamHandler.resolve_key, id_of. destruct (call_id c); [reflexivity | congruence].
Qed.

(** Index-keyed fragments: the key is the one synthesized from the index,
    whether an accumulator with that index is in flight or not. *)
Lemma resolve_by_index (n : nat) (c : CallDelta) (d : StreamHandler.tool_calls_t) :
  call_id c = None /\ call_index c <> None ->
  index_keyed d ->
  StreamHandler.resolve_key n c d = idx_key (index_of c)
  /\ index_keyed (collect_with_key (idx_key (index_of c)) c d).
Proof.
  intros [Hid Hix] Hd. destruct (call_index c) as [ci|] eqn:Eci; [|congruence].
  unfold index_of. rewrite Eci. split.
  - unfold StreamHandler.resolve_key. rewrite Hid, Eci.
    destruct (StreamHandler.find_by_index ci d) as [k|] eqn:F.
    + now apply find_by_index_keyed in F.
    + reflexivity.
  - unfold collect_with_key, index_keyed. apply forall_set; [exact Hd|].
    simpl. unfold accumulator_for.
    destruct (Py.get (idx_key ci) d) as [b|] eqn:G.
    + apply get_some_in in G. unfold index_keyed in Hd. rewrite Forall_forall in Hd.
      destruct (Hd _ G) as (i & Hi & Hk). simpl in *.
      exists i. split; [now apply update_index | exact Hk].
    + exists ci. split; [|reflexivity]. apply update_index. simpl. exact Eci.
Qed.

(** C3.  Take a stream that signals nothing until its last chunk, which
    signals [tool_calls].  If every partial call carries an identifier, the
    requests emitted are one per distinct identifier, in order of first
    appearance, each with the in-order concatenation of the argument texts
    of the fragments carrying that identifier.  If no partial call carries
    an identifier and every one carries an index, the requests emitted are
    one per distinct index, each with the in-order concatenation of the
    argument texts of the fragments carrying that index. *)
Theorem one_request_per_key (on_finish on_debug : bool) (stream : list Chunk) (last : Chunk) :
  Forall (fun ch => signals ch = None) stream ->
  signals last = Some "tool_calls" ->
  let frs := stream_calls (stream ++ [last]) in
  let emitted :=
    emitted_calls (StreamHandler.handle_stream on_finish on_debug (stream ++ [last])) in
  (Forall (fun c => call_id c <> None) frs ->
   map id_and_arguments emitted
   = map (fun k => (Py.str_or k "call", concat_args (has_id k) frs))
         (first_seen String.eqb (map id_of frs)))
  /\
  (Forall (fun c => call_id c = None /\ call_index c <> None) frs ->
   map id_and_arguments emitted
   = map (fun i => (idx_key i, concat_args (has_index i) frs))
         (first_seen Z.eqb (map index_of frs))).
Proof.
  intros Hq Hl frs emitted. subst emitted.
  rewrite emitted_at_completion by assumption. rewrite map_map.
  subst frs. rewrite <- indexed_calls_snd.
  set (ics := indexed_calls (stream ++ [last])).
  split; intro Hall.
  - rewrite (@collect_indexed_keyed id_of (fun c => call_id c <> None) (fun _ => True)
               (fun n c d Hc _ => conj (@resolve_by_id n c d Hc) I) ics [] Hall I).
    rewrite collect_keyed_requests.
    + apply map_ext. intro k. f_equal. apply concat_args_ext.
      intros c Hin. rewrite Forall_forall in Hall. specialize (Hall c Hin).
      unfold id_of, has_id. destruct (call_id c); [reflexivity | congruence].
    + eapply Forall_impl; [|exact Hall]. intros c Hc. simpl in Hc. right.
      unfold id_of. destruct (call_id c); [reflexivity | congruence].
  - rewrite (@collect_indexed_keyed (fun c => idx_key (index_of c))
               (fun c => call_id c = None /\ call_index c <> None) index_keyed
               (fun n c d Hc Hd => @resolve_by_index n c d Hc Hd) ics [] Hall
               (Forall_nil _)).
    rewrite collect_keyed_requests.
    + rewrite <- (map_map index_of idx_key).
      rewrite (first_seen_map Z.eqb String.eqb idx_key idx_key_eqb), map_map.
      apply map_ext. intro i. f_equal. apply concat_args_ext.
      intros c Hin. rewrite Forall_forall in Hall. destruct (Hall c Hin) as [_ Hix].
      rewrite idx_key_eqb. unfold index_of, has_index.
      destruct (call_index c); [reflexivity | congruence].
    + eapply Forall_impl; [|exact Hall]. intros c [Hc _]. now left.
Qed.

(** ** C6: an identifier that arrives after the index *)

Section TwoKeys.

Variable A : Type.
Variable eqb : A -> A -> bool.
Hypothesis eqb_eq : forall x y, eqb x y = true <-> x = y.
Variables a b : A.
Hypothesis a_b : a <> b.

Let step := fun (acc : list A) (x : A) => if seen eqb x acc then acc else acc ++ [x].

Lemma eqb_same (x : A) : eqb x x = true.
Proof. now apply eqb_eq. Qed.

Lemma eqb_diff (x y : A) : x <> y -> eqb x y = false.
Proof.
  intro H. destruct (eqb x y) eqn:E; [|reflexivity]. apply eqb_eq in E. contradiction.
Qed.

Lemma fold_two_full (r : list A) :
  Forall (fun x => x = a \/ x = b) r -> fold_left step r [a; b] = [a; b].
Proof.
  induction 1 as [|x r [->| ->] _ IH]; simpl.
  - reflexivity.
  - unfold step at 2, seen. simpl. now rewrite eqb_same.
  - unfold step at 2, seen. simpl. rewrite eqb_same, orb_true_r. exact IH.
Qed.

Lemma first_seen_two (r : list A) :
  Forall (fun x => x = a \/ x = b) r -> In b r ->
  first_seen eqb (a :: r) = [a; b].
Proof.
  unfold first_seen. simpl.
  change (Forall (fun x => x = a \/ x = b) r -> In b r -> fold_left step r [a] = [a; b]).
  induction 1 as [|x r [->| ->] Hr IH]; simpl; intro Hin.
  - contradiction.
  - unfold step at 2, seen. simpl. rewrite eqb_same. simpl.
    apply IH. destruct Hin as [E|Hin]; [contradiction | exact Hin].
  - unfold step at 2, seen. simpl. rewrite (eqb_diff (not_eq_sym a_b)). simpl.
    now apply fold_two_full.
Qed.

End TwoKeys.

Lemma headed_step (i : Z) (k : string) (n : nat) (c : CallDelta)
    (d : StreamHandler.tool_calls_t) :
  late_ok i k c -> headed_by i d ->
  StreamHandler.resolve_key n c d = late_key i c
  /\ headed_by i (collect_with_key (late_key i c) c d).
Proof.
  intros Hc (b & rest & -> & Hb). split.
  - unfold StreamHandler.resolve_key, late_key.
    destruct Hc as [->|[-> ->]]; [reflexivity|].
    simpl. rewrite Hb. simpl. now rewrite Z.eqb_refl.
  - unfold collect_with_key, accumulator_for, headed_by. simpl.
    destruct (String.eqb_spec (late_key i c) (idx_key i)) as [E|Hne].
    + exists (ToolCallBuilder.update b c), rest. split; [reflexivity|].
      now apply update_index.
    + eexists b, _. split; [reflexivity | exact Hb].
Qed.

(** C6 (as the code has it).  Take a stream that signals nothing until its
    last chunk, which signals [tool_calls], and whose partial calls are those
    of one logical call: the first carries only the index [i], each later
    one carries the identifier [k] or only the index, and at least one
    carries the identifier.  Then two requests are emitted, not one: the
    first, keyed by the index, holds the argument texts of the fragments
    without identifier; the second, keyed by the identifier, holds those of
    the fragments with it. *)
Theorem identifier_after_index (on_finish on_debug : bool) (stream : list Chunk) (last : Chunk)
    (i : Z) (k : string) (f0 : CallDelta) (rest : list CallDelta) :
  Forall (fun ch => signals ch = None) stream ->
  signals last = Some "tool_calls" ->
  stream_calls (stream ++ [last]) = f0 :: rest ->
  call_id f0 = None ->
  call_index f0 = Some i ->
  Forall (late_ok i k) rest ->
  Exists (fun c => call_id c = Some k) rest ->
  k <> idx_key i ->
  map id_and_arguments
      (emitted_calls (StreamHandler.handle_stream on_finish on_debug (stream ++ [last])))
  = [ (idx_key i, concat_args no_id (f0 :: rest));
      (Py.str_or k "call", concat_args (has_id k) (f0 :: rest)) ].
Proof.
  intros Hq Hl Hfrs Hid0 Hix0 Hrest Hex Hne.
  rewrite emitted_at_completion by assumption. rewrite map_map.
  rewrite <- indexed_calls_snd in Hfrs.
  destruct (indexed_calls (stream ++ [last])) as [|[n0 c0] ics]; [discriminate|].
  simpl in Hfrs. injection Hfrs as -> Hics.
  assert (Hall : Forall (late_ok i k) (f0 :: rest)).
  { constructor; [right; now split | exact Hrest]. }
  assert (Hkey0 : late_key i f0 = idx_key i) by (unfold late_key; now rewrite Hid0).
  assert (E : collect_indexed ((n0, f0) :: ics) [] = collect_keyed (late_key i) (f0 :: rest) []).
  { unfold collect_indexed, collect_keyed. simpl.
    rewrite collect_one_with_key.
    assert (R0 : StreamHandler.resolve_key n0 f0 [] = late_key i f0).
    { unfold StreamHandler.resolve_key. rewrite Hid0, Hix0, Hkey0. reflexivity. }
    rewrite R0, <- Hics.
    apply (@collect_indexed_keyed (late_key i) (late_ok i k) (headed_by i)
             (fun n c d Hc Hd => @headed_step i k n c d Hc Hd)).
    - now rewrite Hics.
    - rewrite Hkey0. unfold collect_with_key, accumulator_for, headed_by. simpl.
      eexists _, []. split; [reflexivity|]. apply update_index. simpl. exact Hix0. }
  rewrite E, collect_keyed_requests.
  - simpl map at 2. rewrite Hkey0.
    rewrite (@first_seen_two string String.eqb String.eqb_eq (idx_key i) k (not_eq_sym Hne)).
    + simpl. f_equal; [|f_equal]; f_equal; apply concat_args_ext; intros c Hin;
        rewrite Forall_forall in Hall; specialize (Hall c Hin);
        unfold late_key, no_id, has_id;
        destruct Hall as [->|[-> _]]; try apply String.eqb_refl;
        try (now apply String.eqb_neq).
      reflexivity.
    + rewrite Forall_forall in *. intros x Hx. apply in_map_iff in Hx.
      destruct Hx as (c & <- & Hc). unfold late_key.
      destruct (Hrest c Hc) as [->|[-> _]]; auto.
    + apply Exists_exists in Hex. destruct Hex as (c & Hc & Eid).
      apply in_map_iff. exists c. split; [|exact Hc]. unfold late_key. now rewrite Eid.
  - eapply Forall_impl; [|exact Hall]. intros c Hc. unfold keyed_ok, late_key.
    destruct Hc as [->|[-> _]]; auto.
Qed.

(** Scenario B of the specification, and its index-only variant: one request
    each, with the argument texts joined. *)
Lemma one_request_per_key_witness :
  map id_and_arguments
      (emitted_calls
         (StreamHandler.handle_stream true false (scenario_b_head ++ [scenario_b_last])))
  = [("1", "{}")]
  /\ map id_and_arguments
         (emitted_calls
            (StreamHandler.handle_stream true false (index_only_head ++ [index_only_last])))
     = [("idx_0", "{}")].
Proof.
  split.
  - apply (proj1 (@one_request_per_key true false scenario_b_head scenario_b_last
                    ltac:(repeat constructor) eq_refl)).
    repeat constructor; discriminate.
  - apply (proj2 (@one_request_per_key true false index_only_head index_only_last
                    ltac:(repeat constructor) eq_refl)).
    repeat constructor; discriminate.
Defined.

(** The stream in which the identifier arrives in the second fragment of the
    call yields two requests. *)
Lemma identifier_after_index_witness :
  map id_and_arguments
      (emitted_calls (StreamHandler.handle_stream true false (late_id_head ++ [late_id_last])))
  = [("idx_0", "{"); ("1", "}")].
Proof.
  apply (@identifier_after_index true false late_id_head late_id_last 0%Z "1"
           (obj_call None (Some 0%Z) (Some "get_risk") (Some "{"))
           [obj_call (Some "1") (Some 0%Z) None (Some "}")]).
  - repeat constructor.
  - reflexivity.
  - reflexivity.
  - reflexivity.
  - reflexivity.
  - repeat constructor.
  - constructor. reflexivity.
  - discriminate.
Defined.

(** C6, refuted as stated: one logical call whose first fragment carries only
    the index 0 and whose second fragment brings the identifier ["1"] is
    finalized as two requests, the second one without a name. *)
Lemma late_identifier_splits_the_call :
  emitted_calls (StreamHandler.handle_stream true false (late_id_head ++ [late_id_last]))
  = [ {| tc_id := "idx_0"; tc_type := "function"; tc_name := "get_risk";
         tc_arguments := "{" |};
      {| tc_id := "1"; tc_type := "function"; tc_name := "unknown_function";
         tc_arguments := "}" |} ].
Proof. reflexivity. Qed.

(** C4, refuted as stated: a later fragment with the same identifier and
    another non-empty name replaces the name set by the first one, in the
    accumulator and in the request it is finalized into. *)
Lemma later_name_overwrites :
  let first := obj_call (Some "1") (Some 0%Z) (Some "get_risk") None in
  let later := obj_call (Some "1") (Some 0%Z) (Some "other") None in
  let b1 := ToolCallBuilder.update (ToolCallBuilder.make "1" (Some 0%Z) "function") first in
  ToolCallBuilder.function_name b1 = "get_risk"
  /\ ToolCallBuilder.function_name (ToolCallBuilder.update b1 later) = "other"
  /\ StreamHandler.resolve_key 0 later [("1", b1)] = "1"
  /\ map tc_name
         (emitted_calls
            (StreamHandler.handle_stream true false (renamed_head ++ [renamed_last])))
     = ["other"].
Proof. repeat split. Qed.

(** ** C10: only the first choice of a chunk counts *)

Lemma handle_chunk_same_head (on_finish on_debug : bool) (c1 c2 : Chunk)
    (d : StreamHandler.tool_calls_t) :
  same_head c1 c2 ->
  StreamHandler.handle_chunk on_finish on_debug c1 d
  = StreamHandler.handle_chunk on_finish on_debug c2 d.
Proof.
  intros [Hf Hh]. unfold StreamHandler.handle_chunk.
  destruct (choices c1) as [|x xs], (choices c2) as [|y ys]; simpl in Hh;
    try discriminate; [reflexivity|].
  injection Hh as <-.
  unfold StreamHandler._emit_thinking, StreamHandler.find_thinking. now rewrite Hf.
Qed.

Lemma handle_from_same_head (on_finish on_debug : bool) (s1 s2 : list Chunk) :
  Forall2 same_head s1 s2 ->
  forall d, StreamHandler.handle_from on_finish on_debug s1 d
            = StreamHandler.handle_from on_finish on_debug s2 d.
Proof.
  induction 1 as [|c1 c2 s1 s2 Hc Hs IH]; intro d; simpl.
  - reflexivity.
  - rewrite (handle_chunk_same_head on_finish on_debug d Hc).
    destruct (StreamHandler.handle_chunk on_finish on_debug c2 d) as [evs d'].
    now rewrite IH.
Qed.

(** C10.  Two chunks that agree on their first choice (and on the fields of
    the chunk itself) make the handler emit the same events and leave the
    same accumulators, whatever their other choices carry; so do two streams
    of such chunks.  A chunk without choices emits nothing but the
    diagnostic record, and that only when diagnostics are on, and leaves the
    accumulators as they were. *)
Theorem only_first_choice (on_finish on_debug : bool) :
  (forall c1 c2 d, same_head c1 c2 ->
     StreamHandler.handle_chunk on_finish on_debug c1 d
     = StreamHandler.handle_chunk on_finish on_debug c2 d)
  /\ (forall s1 s2, Forall2 same_head s1 s2 ->
        StreamHandler.handle_stream on_finish on_debug s1
        = StreamHandler.handle_stream on_finish on_debug s2)
  /\ (forall chunk d, choices chunk = [] ->
        StreamHandler.handle_chunk on_finish on_debug chunk d
        = ((if on_debug then [OnDebug DbgNoChoices] else []), d)).
Proof.
  split; [|split].
  - intros c1 c2 d H. now apply handle_chunk_same_head.
  - intros s1 s2 H. unfold StreamHandler.handle_stream. now apply handle_from_same_head.
  - intros chunk d H. unfold StreamHandler.handle_chunk. now rewrite H.
Qed.

(** A second choice with text, a partial call and [tool_calls] changes
    nothing; a chunk without choices is only logged. *)
Lemma only_first_choice_witness :
  StreamHandler.handle_chunk true true two_choices []
  = StreamHandler.handle_chunk true true one_choice []
  /\ StreamHandler.handle_stream true true [two_choices; no_choices]
     = StreamHandler.handle_stream true true [one_choice; no_choices]
  /\ StreamHandler.handle_chunk true true no_choices [] = ([OnDebug DbgNoChoices], [])
  /\ StreamHandler.handle_chunk true false no_choices [] = ([], []).
Proof.
  assert (H : same_head two_choices one_choice) by (split; reflexivity).
  split; [|split; [|split]].
  - exact (proj1 (only_first_choice true true) two_choices one_choice [] H).
  - apply (proj1 (proj2 (only_first_choice true true))). repeat constructor.
  - exact (proj2 (proj2 (only_first_choice true true)) no_choices [] eq_refl).
  - exact (proj2 (proj2 (only_first_choice true false)) no_choices [] eq_refl).
Defined.

(** ** C9: accumulators without a name *)

Lemma to_dict_name_nonempty (b : ToolCallBuilder.t) :
  tc_name (ToolCallBuilder.to_dict b) <> EmptyString.
Proof.
  unfold ToolCallBuilder.to_dict, Py.str_or. simpl.
  destruct (Py.truthy (ToolCallBuilder.function_name b)) eqn:E.
  - now apply truthy_true_iff.
  - discriminate.
Qed.

(** C9 (as the code has it).  Every accumulator in flight is finalized into
    exactly one request, in order, none is dropped; the name of every request
    is non-empty; and an accumulator that has no name is finalized under the
    name ["unknown_function"], as an ordinary request. *)
Theorem nameless_finalized_under_placeholder (d : StreamHandler.tool_calls_t)
    (k : string) (b : ToolCallBuilder.t) :
  In (k, b) d ->
  StreamHandler._emit_tool_calls d
  = map (fun kb => OnToolCall (ToolCallBuilder.to_dict (snd kb))) d
  /\ In (OnToolCall (ToolCallBuilder.to_dict b)) (StreamHandler._emit_tool_calls d)
  /\ Forall (fun r => tc_name r <> EmptyString)
            (emitted_calls (StreamHandler._emit_tool_calls d))
  /\ (ToolCallBuilder.function_name b = EmptyString ->
      tc_name (ToolCallBuilder.to_dict b) = "unknown_function").
Proof.
  intro Hin. unfold StreamHandler._emit_tool_calls, Py.values.
  rewrite map_map. split; [reflexivity | split; [|split]].
  - apply in_map_iff. exists (k, b). now split.
  - rewrite <- (map_map snd (fun b0 => OnToolCall (ToolCallBuilder.to_dict b0))).
    change (map (fun b0 => OnToolCall (ToolCallBuilder.to_dict b0)) (map snd d))
      with (StreamHandler._emit_tool_calls d).
    rewrite emitted_calls_batch. apply Forall_forall. intros r Hr.
    apply in_map_iff in Hr. destruct Hr as (b0 & <- & _). apply to_dict_name_nonempty.
  - intro Hn. unfold ToolCallBuilder.to_dict. simpl. now rewrite Hn.
Qed.

(** The accumulator of [nameless_stream] at finalization. *)
Lemma nameless_finalized_under_placeholder_witness :
  let b := {| ToolCallBuilder.id := "1"; ToolCallBuilder.index := Some 0%Z;
              ToolCallBuilder.type := "function";
              ToolCallBuilder.function_name := EmptyString;
              ToolCallBuilder.arguments := ["{}"] |} in
  In ("1", b) [("1", b)]
  /\ In (OnToolCall (ToolCallBuilder.to_dict b)) (StreamHandler._emit_tool_calls [("1", b)])
  /\ tc_name (ToolCallBuilder.to_dict b) = "unknown_function".
Proof.
  intro b.
  assert (Hin : In ("1", b) [("1", b)]) by (left; reflexivity).
  destruct (@nameless_finalized_under_placeholder [("1", b)] "1" b Hin)
    as (_ & H2 & _ & H4).
  split; [exact Hin | split; [exact H2 | exact (H4 eq_refl)]].
Defined.

(** C9, refuted as stated: with diagnostics on, a call that never got a name
    produces exactly the callbacks of a call to a capability that is named
    ["unknown_function"]: a tool-call request like any other, and no record
    of an anomaly. *)
Lemma nameless_call_not_reported :
  StreamHandler.handle_stream true true nameless_stream
  = [ OnDebug (DbgToolCallsDelta 1); OnDebug (DbgFinishReason "tool_calls");
      OnToolCall {| tc_id := "1"; tc_type := "function"; tc_name := "unknown_function";
                    tc_arguments := "{}" |};
      OnFinish "tool_calls" ]
  /\ StreamHandler.handle_stream true true nameless_stream
     = StreamHandler.handle_stream true true named_stream.
Proof. split; reflexivity. Qed.

(** ** Creation order of the accumulators *)

Lemma keys_set_extends (V : Type) (k : string) (v : V) (d : Py.dict V) :
  exists new, Py.keys (Py.set k v d) = Py.keys d ++ new.
Proof.
  destruct (Py.contains k d) eqn:E.
  - exists []. rewrite app_nil_r. now apply keys_set_known, contains_in_keys.
  - exists [k]. apply keys_set_new. intro H. apply contains_in_keys in H. congruence.
Qed.


(** ** The closures of [send_message] *)

Lemma run_callbacks_app (e1 e2 : list Event) (st : Warbot.RoundState) :
  Warbot.run_callbacks (e1 ++ e2) st = Warbot.run_callbacks e2 (Warbot.run_callbacks e1 st).
Proof. unfold Warbot.run_callbacks. apply fold_left_app. Qed.

Lemma run_callbacks_tool_calls (evs : list Event) (st : Warbot.RoundState) :
  Warbot.tool_calls (Warbot.run_callbacks evs st) = Warbot.tool_calls st ++ emitted_calls evs.
Proof.
  revert st. induction evs as [|e evs IH]; intro st; simpl.
  - now rewrite app_nil_r.
  - unfold Warbot.run_callbacks in *. simpl. rewrite IH.
    destruct e; simpl; try reflexivity. now rewrite <- app_assoc.
Qed.

Lemma run_callbacks_finish_reason (evs : list Event) (st : Warbot.RoundState) (r : string) :
  Warbot.finish_reason (Warbot.run_callbacks evs st) = Some r ->
  In r (finish_signals evs) \/ Warbot.finish_reason st = Some r.
Proof.
  revert st. induction evs as [|e evs IH]; intro st; simpl.
  - auto.
  - unfold Warbot.run_callbacks in *. simpl. intro H. apply IH in H.
    destruct H as [H|H]; [left; apply in_or_app; now right|].
    destruct e; simpl in *; auto. injection H as ->. left. now left.
Qed.

Lemma format_assistant_tool_message (calls : list ToolCall) :
  Warbot._format_assistant_tool_message calls = AssistantToolCalls calls.
Proof.
  unfold Warbot._format_assistant_tool_message. f_equal.
  induction calls as [|[i t n a] calls IH]; simpl; [reflexivity | now rewrite IH].
Qed.

(** ** Events of a stream that never signals [tool_calls] *)

Lemma handle_from_without_tool_calls (on_finish on_debug : bool) (stream : list Chunk) :
  Forall (fun ch => signals_tool_calls ch = false) stream ->
  forall d,
    emitted_calls (StreamHandler.handle_from on_finish on_debug stream d) = []
    /\ ~ In "tool_calls" (finish_signals (StreamHandler.handle_from on_finish on_debug stream d)).
Proof.
  induction 1 as [|ch stream Hch Hs IH]; intro d; simpl.
  - split; [reflexivity | tauto].
  - rewrite handle_chunk_shape. unfold signals_tool_calls in Hch.
    destruct (prelude_quiet on_debug ch) as [P1 P2].
    destruct (signals ch) as [r|].
    + destruct (IH []) as [IH1 IH2].
      rewrite Hch, !emitted_calls_app, !finish_signals_app, P1, P2, IH1. simpl.
      split.
      * now destruct on_finish.
      * intro Hin. apply in_app_or in Hin. destruct Hin as [Hin|Hin]; [|now apply IH2].
        destruct on_finish; simpl in Hin; [|contradiction].
        destruct Hin as [E|[]]. subst r. discriminate.
    + destruct (IH (after_chunk ch d)) as [IH1 IH2].
      now rewrite emitted_calls_app, finish_signals_app, P1, P2, IH1.
Qed.

(** ** The conversation loop *)

Section Loop.

Variable json_loads : string -> option JValue.
Variable json_dumps : JValue -> string.
Variable create : list Message -> list ToolRegistry.FunctionSchema -> list Chunk.
Variable registry : ToolRegistry.t.
Variable debug : bool.

Local Abbreviation execute_from := (Warbot.execute_from json_loads json_dumps registry).
Local Abbreviation _execute_tool_calls := (Warbot._execute_tool_calls json_loads json_dumps registry).
Local Abbreviation after_stream := (Warbot.after_stream create registry debug).
Local Abbreviation round := (Warbot.round json_loads json_dumps create registry debug).
Local Abbreviation rounds := (Warbot.rounds json_loads json_dumps create registry debug).
Local Abbreviation upstream history :=
  (create history (ToolRegistry.get_function_schemas registry)).

Lemma execute_from_ok (calls : list ToolCall) :
  forall messages log result,
    execute_from calls messages = (log, Ok result) ->
    exists new,
      result = messages ++ new
      /\ Forall2 answers calls new
      /\ map fst log = map tc_name calls.
Proof.
  induction calls as [|call calls IH]; intros messages log result; simpl.
  - intro H. injection H as <- <-. exists []. rewrite app_nil_r. repeat split. constructor.
  - destruct (ToolRegistry.call_execute registry (tc_name call)
                (Warbot.parse_args json_loads (tc_arguments call))) as [res|e];
      [|discriminate].
    destruct (execute_from calls _) as [log' r] eqn:E.
    intro H. injection H as <- ->.
    destruct (IH _ _ _ E) as (new & -> & Hans & Hlog).
    exists (ToolMsg (tc_id call) (tc_name call) (json_dumps res) :: new).
    rewrite <- app_assoc. simpl. repeat split.
    + constructor; [now exists (json_dumps res) | exact Hans].
    + now rewrite Hlog.
Qed.


Lemma after_stream_tool_calls (history : list Message) :
  Warbot.tool_calls (after_stream history)
  = emitted_calls (StreamHandler.handle_stream true debug (upstream history)).
Proof. unfold Warbot.after_stream. now rewrite run_callbacks_tool_calls. Qed.



Lemma rounds_S (fuel : nat) (history : list Message) :
  rounds (S fuel) history
  = match snd (round history) with
    | Warbot.Continue history' => rounds fuel history'
    | Warbot.Return content history' => Warbot.Returned content history'
    | Warbot.Raise e history' => Warbot.Failed e history'
    end.
Proof. reflexivity. Qed.

Lemma degenerate_round_step (history : list Message) :
  Warbot.finish_reason (after_stream history) = Some "tool_calls" ->
  Warbot.tool_calls (after_stream history) = [] ->
  round history = ([], Warbot.Continue (history ++ [AssistantToolCalls []])).
Proof.
  intros Hf Hc. unfold Warbot.round. rewrite Hf, Hc. simpl. now rewrite app_nil_r.
Qed.

(** C2 (as the code has it).  A round that ends with the reason
    [tool_calls] and no request takes the tool branch all the same: an
    assistant message with an empty list of requests is appended, nothing is
    dispatched, the buffered text is dropped, and the next round starts. *)
Theorem degenerate_round_continues (history : list Message) :
  Warbot.finish_reason (after_stream history) = Some "tool_calls" ->
  Warbot.tool_calls (after_stream history) = [] ->
  round history = ([], Warbot.Continue (history ++ [AssistantToolCalls []]))
  /\ forall fuel, rounds (S fuel) history = rounds fuel (history ++ [AssistantToolCalls []]).
Proof.
  intros Hf Hc. pose proof (degenerate_round_step history Hf Hc) as Hround.
  split; [exact Hround|]. intro fuel. simpl. now rewrite Hround.
Qed.



(** C8.  When no chunk of the round signals [tool_calls], the handler emits
    no request, whatever partial calls arrived, and the loop finishes the
    exchange with the buffered text: the registry is not called. *)
Theorem no_dispatch_without_tool_calls (history : list Message) :
  Forall (fun ch => signals_tool_calls ch = false) (upstream history) ->
  let content := Py.join (Warbot.assistant_chunks (after_stream history)) in
  emitted_calls (StreamHandler.handle_stream true debug (upstream history)) = []
  /\ Warbot.tool_calls (after_stream history) = []
  /\ round history = ([], Warbot.Return content (history ++ [AssistantMsg content])).
Proof.
  intros Hq content.
  destruct (handle_from_without_tool_calls true debug Hq []) as [He Hf].
  fold (StreamHandler.handle_stream true debug (upstream history)) in He, Hf.
  assert (Hc : Warbot.tool_calls (after_stream history) = []).
  { now rewrite after_stream_tool_calls. }
  split; [exact He | split; [exact Hc|]].
  unfold Warbot.round. rewrite Hc. simpl.
  destruct (Warbot.finish_reason (after_stream history)) as [r|] eqn:Er; [|reflexivity].
  destruct (String.eqb_spec r "tool_calls") as [->|_]; [|reflexivity].
  apply run_callbacks_finish_reason in Er. destruct Er as [Er|Er]; [|discriminate].
  contradiction.
Qed.

End Loop.

(** ** The loop on the worked inputs *)



(** C2, refuted as stated: a round that ends with [tool_calls] and no
    request does not return the buffered text ["partial"]; it appends an
    assistant message without requests and asks the model again, and with
    a model that keeps answering so the fuel runs out. *)
Lemma degenerate_round_does_not_finalize :
  Warbot.round example_loads example_dumps (always degenerate_stream) example_registry false
    start_history
  = ([], Warbot.Continue (start_history ++ [AssistantToolCalls []]))
  /\ Warbot.rounds example_loads example_dumps (always degenerate_stream) example_registry
       false 3 start_history
     = Warbot.OutOfFuel
         (start_history
            ++ [AssistantToolCalls []; AssistantToolCalls []; AssistantToolCalls []]).
Proof. split; reflexivity. Qed.

Lemma degenerate_round_continues_witness :
  Warbot.round example_loads example_dumps (always degenerate_stream) example_registry false
    start_history
  = ([], Warbot.Continue (start_history ++ [AssistantToolCalls []])).
Proof.
  apply (@degenerate_round_continues example_loads example_dumps (always degenerate_stream)
           example_registry false start_history eq_refl eq_refl).
Defined.

(** With a model that always answers with a degenerate round,
    [send_message] never returns. *)
Lemma degenerate_rounds_never_return (fuel : nat) (history : list Message) :
  exists history',
    Warbot.rounds example_loads example_dumps (always degenerate_stream) example_registry
      false fuel history
    = Warbot.OutOfFuel history'.
Proof.
  revert history. induction fuel as [|fuel IH]; intro history.
  - now exists history.
  - rewrite rounds_S.
    rewrite (@degenerate_round_step example_loads example_dumps (always degenerate_stream)
               example_registry false history eq_refl eq_refl).
    apply IH.
Qed.


(** Stray partial calls in a round that ends with [stop]: no dispatch. *)
Lemma no_dispatch_without_tool_calls_witness :
  emitted_calls (StreamHandler.handle_stream true false stray_stream) = []
  /\ Warbot.round example_loads example_dumps (always stray_stream) example_registry false
       start_history
     = ([], Warbot.Return "done" (start_history ++ [AssistantMsg "done"])).
Proof.
  destruct (@no_dispatch_without_tool_calls example_loads example_dumps (always stray_stream)
              example_registry false start_history)
    as (H1 & _ & H3).
  - repeat constructor.
  - split; [exact H1 | exact H3].
Defined.

(** ** The scenarios of the specification *)

(** Scenario A: reasoning text, then answer text in two parts. *)
Example scenario_a :
  StreamHandler.handle_stream false false
    [ {| choices :=
           [ {| delta := {| delta_is_dict := false;
                            delta_fields :=
                              {| thinking := Some (ThinkingStr "thought"); reasoning := None;
                                 reasoning_content := None; internal_monologue := None |};
                            delta_content := Some (ContentList [PartStr "hello "]);
                            delta_tool_calls := None |};
                finish_reason := None; choice_fields := no_thinking |} ];
         chunk_fields := no_thinking |};
      chunk_of (delta_of (Some (ContentList [PartStr "world"])) None) (Some "stop") ]
  = [OnThinking "thought"; OnContent "hello "; OnContent "world"].
Proof. reflexivity. Qed.

(** Scenario B: one request with the argument texts joined. *)
Example scenario_b :
  emitted_calls (StreamHandler.handle_stream true false (scenario_b_head ++ [scenario_b_last]))
  = [ {| tc_id := "1"; tc_type := "function"; tc_name := "get_risk";
         tc_arguments := "{}" |} ].
Proof. reflexivity. Qed.

(** * Further properties of the stream handler *)

Lemma content_texts_app (e1 e2 : list Event) :
  content_texts (e1 ++ e2) = content_texts e1 ++ content_texts e2.
Proof. apply flat_map_app. Qed.

Lemma thinking_texts_app (e1 e2 : list Event) :
  thinking_texts (e1 ++ e2) = thinking_texts e1 ++ thinking_texts e2.
Proof. apply flat_map_app. Qed.

Lemma debug_events_only_debug (d : Delta) (choice : Choice) :
  Forall (fun e => is_debug e = true) (StreamHandler.debug_events d choice).
Proof.
  unfold StreamHandler.debug_events.
  repeat (apply Forall_app; split).
  - destruct (delta_is_dict d), (thinking (delta_fields d)) as [v|];
      try destruct (StreamHandler.thinking_truthy (Some v)); repeat constructor.
  - destruct (StreamHandler.delta_calls d); repeat constructor.
  - destruct (finish_reason choice) as [r|]; try destruct (Py.truthy r); repeat constructor.
Qed.

Lemma emit_thinking_cases (d : Delta) (choice : Choice) (chunk : Chunk) :
  StreamHandler._emit_thinking d choice chunk = []
  \/ exists t, t <> EmptyString /\ StreamHandler._emit_thinking d choice chunk = [OnThinking t].
Proof.
  unfold StreamHandler._emit_thinking.
  destruct (StreamHandler.find_thinking d choice chunk) as [v|]; [|now left].
  destruct (Py.truthy (StreamHandler.thinking_text v)) eqn:E; [|now left].
  right. eexists. split; [|reflexivity]. now apply truthy_true_iff.
Qed.

Lemma emit_content_cases (d : Delta) :
  StreamHandler._emit_content d = []
  \/ exists t, t <> EmptyString /\ StreamHandler._emit_content d = [OnContent t].
Proof.
  unfold StreamHandler._emit_content.
  destruct (if delta_is_dict d then None else delta_content d) as [c|]; [|now left].
  destruct (StreamHandler.content_truthy c); [|now left].
  match goal with |- context [Py.truthy ?t] => destruct (Py.truthy t) eqn:E end; [|now left].
  right. eexists. split; [|reflexivity]. now apply truthy_true_iff.
Qed.

(** The prelude of a chunk, event kind by event kind. *)
Lemma prelude_parts (on_debug : bool) (chunk : Chunk) :
  exists dbg,
    Forall (fun e => is_debug e = true) dbg
    /\ (on_debug = false -> dbg = [])
    /\ prelude on_debug chunk = dbg ++ chunk_thinking chunk ++ chunk_content chunk.
Proof.
  unfold prelude, chunk_thinking, chunk_content.
  destruct (choices chunk) as [|choice others].
  - exists (if on_debug then [OnDebug DbgNoChoices] else []).
    destruct on_debug; repeat split; try rewrite app_nil_r; repeat constructor; discriminate.
  - exists (if on_debug then StreamHandler.debug_events (delta choice) choice else []).
    destruct on_debug; repeat split; try discriminate.
    + apply debug_events_only_debug.
    + constructor.
Qed.

Lemma text_ok_debug (l : list Event) : Forall (fun e => is_debug e = true) l -> Forall text_ok l.
Proof.
  intro H. eapply Forall_impl; [|exact H]. intros [] E; simpl in *; try exact I; discriminate.
Qed.

Lemma chunk_thinking_ok (chunk : Chunk) : Forall text_ok (chunk_thinking chunk).
Proof.
  unfold chunk_thinking. destruct (choices chunk) as [|choice others]; [constructor|].
  destruct (emit_thinking_cases (delta choice) choice chunk) as [->|(t & Ht & ->)];
    repeat constructor. exact Ht.
Qed.

Lemma chunk_content_ok (chunk : Chunk) : Forall text_ok (chunk_content chunk).
Proof.
  unfold chunk_content. destruct (choices chunk) as [|choice others]; [constructor|].
  destruct (emit_content_cases (delta choice)) as [->|(t & Ht & ->)];
    repeat constructor. exact Ht.
Qed.

Lemma prelude_text_ok (on_debug : bool) (chunk : Chunk) : Forall text_ok (prelude on_debug chunk).
Proof.
  destruct (prelude_parts on_debug chunk) as (dbg & Hd & _ & ->).
  repeat (apply Forall_app; split).
  - now apply text_ok_debug.
  - apply chunk_thinking_ok.
  - apply chunk_content_ok.
Qed.

Lemma handle_from_text_ok (on_finish on_debug : bool) (stream : list Chunk) :
  forall d, Forall text_ok (StreamHandler.handle_from on_finish on_debug stream d).
Proof.
  induction stream as [|ch stream IH]; intro d; simpl.
  - constructor.
  - rewrite handle_chunk_shape. destruct (signals ch) as [r|].
    + repeat (apply Forall_app; split).
      * apply prelude_text_ok.
      * destruct (String.eqb r "tool_calls"); [|constructor].
        unfold StreamHandler._emit_tool_calls. apply Forall_forall. intros e He.
        apply in_map_iff in He. destruct He as (b & <- & _). exact I.
      * destruct on_finish; repeat constructor.
      * apply IH.
    + apply Forall_app. split; [apply prelude_text_ok | apply IH].
Qed.

(** X1.  Whatever the stream, [on_thinking] and [on_content] are never called
    with an empty text: an absent, empty or text-less payload gives no
    event. *)
Theorem text_events_never_empty (on_finish on_debug : bool) (stream : list Chunk) :
  Forall text_ok (StreamHandler.handle_stream on_finish on_debug stream).
Proof.
  unfold StreamHandler.handle_stream. generalize (@nil (string * ToolCallBuilder.t)).
  intro d. apply handle_from_text_ok.
Qed.

Lemma texts_of_debug (l : list Event) :
  Forall (fun e => is_debug e = true) l ->
  content_texts l = [] /\ thinking_texts l = [] /\ filter (fun e => negb (is_debug e)) l = [].
Proof.
  induction 1 as [|e l He Hl (IH1 & IH2 & IH3)]; simpl.
  - now repeat split.
  - destruct e; simpl in He; try discriminate. simpl. now rewrite IH3.
Qed.

Lemma texts_of_batch (d : StreamHandler.tool_calls_t) :
  content_texts (StreamHandler._emit_tool_calls d) = []
  /\ thinking_texts (StreamHandler._emit_tool_calls d) = []
  /\ filter (fun e => negb (is_debug e)) (StreamHandler._emit_tool_calls d)
     = StreamHandler._emit_tool_calls d.
Proof.
  unfold StreamHandler._emit_tool_calls.
  induction (Py.values d) as [|b l (IH1 & IH2 & IH3)]; simpl.
  - now repeat split.
  - now rewrite IH3.
Qed.

Lemma chunk_thinking_texts (chunk : Chunk) :
  content_texts (chunk_thinking chunk) = []
  /\ filter (fun e => negb (is_debug e)) (chunk_thinking chunk) = chunk_thinking chunk.
Proof.
  unfold chunk_thinking. destruct (choices chunk) as [|choice others]; [now split|].
  now destruct (emit_thinking_cases (delta choice) choice chunk) as [->|(t & _ & ->)].
Qed.

Lemma chunk_content_texts (chunk : Chunk) :
  thinking_texts (chunk_content chunk) = []
  /\ filter (fun e => negb (is_debug e)) (chunk_content chunk) = chunk_content chunk.
Proof.
  unfold chunk_content. destruct (choices chunk) as [|choice others]; [now split|].
  now destruct (emit_content_cases (delta choice)) as [->|(t & _ & ->)].
Qed.

Lemma prelude_texts (on_debug : bool) (chunk : Chunk) :
  content_texts (prelude on_debug chunk) = content_texts (chunk_content chunk)
  /\ thinking_texts (prelude on_debug chunk) = thinking_texts (chunk_thinking chunk)
  /\ filter (fun e => negb (is_debug e)) (prelude on_debug chunk)
     = chunk_thinking chunk ++ chunk_content chunk.
Proof.
  destruct (prelude_parts on_debug chunk) as (dbg & Hd & _ & ->).
  destruct (texts_of_debug Hd) as (D1 & D2 & D3).
  destruct (chunk_thinking_texts chunk) as (T1 & T2).
  destruct (chunk_content_texts chunk) as (C1 & C2).
  rewrite !content_texts_app, !thinking_texts_app, !filter_app.
  rewrite D1, D2, D3, T1, T2, C1, C2. simpl. now rewrite app_nil_r.
Qed.

Lemma handle_from_texts (on_finish on_debug : bool) (stream : list Chunk) :
  forall d,
    content_texts (StreamHandler.handle_from on_finish on_debug stream d)
    = flat_map (fun ch => content_texts (chunk_content ch)) stream
    /\ thinking_texts (StreamHandler.handle_from on_finish on_debug stream d)
       = flat_map (fun ch => thinking_texts (chunk_thinking ch)) stream.
Proof.
  induction stream as [|ch stream IH]; intro d; simpl.
  - now split.
  - rewrite handle_chunk_shape.
    destruct (prelude_texts on_debug ch) as (P1 & P2 & _).
    destruct (signals ch) as [r|].
    + destruct (IH []) as [IH1 IH2].
      destruct (texts_of_batch (after_chunk ch d)) as (B1 & B2 & _).
      rewrite !content_texts_app, !thinking_texts_app, P1, P2, IH1, IH2.
      destruct (String.eqb r "tool_calls"), on_finish; rewrite ?B1, ?B2; simpl;
        rewrite ?app_nil_r; now split.
    + destruct (IH (after_chunk ch d)) as [IH1 IH2].
      rewrite content_texts_app, thinking_texts_app, P1, P2, IH1, IH2. now split.
Qed.

(** X2.  The answer texts passed to [on_content] are, in arrival order, the
    texts of the chunks' first choices, and likewise the reasoning texts
    passed to [on_thinking]: partial tool calls, terminal reasons and
    diagnostics in between neither drop nor reorder them. *)
Theorem texts_pass_through_in_order (on_finish on_debug : bool) (stream : list Chunk) :
  content_texts (StreamHandler.handle_stream on_finish on_debug stream)
  = flat_map (fun ch => content_texts (chunk_content ch)) stream
  /\ thinking_texts (StreamHandler.handle_stream on_finish on_debug stream)
     = flat_map (fun ch => thinking_texts (chunk_thinking ch)) stream.
Proof.
  unfold StreamHandler.handle_stream.
  destruct (handle_from_texts on_finish on_debug stream []) as [Hc Ht].
  split; [exact Hc | exact Ht].
Qed.

(** X3.  Every terminal reason a chunk signals is passed to [on_finish], in
    order and once each, when that callback is given; when it is not, no
    completion signal is produced. *)
Theorem finish_reasons_forwarded (on_finish on_debug : bool) (stream : list Chunk) :
  finish_signals (StreamHandler.handle_stream on_finish on_debug stream)
  = if on_finish then stream_signals stream else [].
Proof.
  unfold StreamHandler.handle_stream, stream_signals.
  generalize (@nil (string * ToolCallBuilder.t)).
  induction stream as [|ch stream IH]; intro d; simpl.
  - now destruct on_finish.
  - rewrite handle_chunk_shape. destruct (prelude_quiet on_debug ch) as [_ P].
    destruct (signals ch) as [r|].
    + rewrite !finish_signals_app, P, IH.
      destruct (String.eqb r "tool_calls"); rewrite ?finish_signals_batch;
        now destruct on_finish.
    + rewrite finish_signals_app, P, IH. now destruct on_finish.
Qed.

Lemma handle_from_after_signal (on_finish on_debug : bool) (s1 s2 : list Chunk) (ch : Chunk) :
  signals ch <> None ->
  forall d,
    StreamHandler.handle_from on_finish on_debug (s1 ++ ch :: s2) d
    = StreamHandler.handle_from on_finish on_debug (s1 ++ [ch]) d
      ++ StreamHandler.handle_from on_finish on_debug s2 [].
Proof.
  intro Hs. induction s1 as [|c s1 IH]; intro d; simpl.
  - rewrite handle_chunk_shape. destruct (signals ch) as [r|]; [|congruence].
    now rewrite app_nil_r.
  - destruct (StreamHandler.handle_chunk on_finish on_debug c d) as [evs d'].
    now rewrite IH, app_assoc.
Qed.

(** X4.  The accumulators do not outlive a terminal reason: whatever came
    before a chunk that signals one, the chunks after it are handled as a
    stream of their own. *)
Theorem accumulators_discarded_at_finish (on_finish on_debug : bool)
    (s1 s2 : list Chunk) (ch : Chunk) :
  signals ch <> None ->
  StreamHandler.handle_stream on_finish on_debug (s1 ++ ch :: s2)
  = StreamHandler.handle_stream on_finish on_debug (s1 ++ [ch])
    ++ StreamHandler.handle_stream on_finish on_debug s2
  /\ forall d, snd (StreamHandler.handle_chunk on_finish on_debug ch d) = [].
Proof.
  intro Hs. split.
  - unfold StreamHandler.handle_stream. now apply handle_from_after_signal.
  - intro d. rewrite handle_chunk_shape. destruct (signals ch); [reflexivity | congruence].
Qed.

(** A stray call before [stop] is not carried into the batch of a later
    [tool_calls]. *)
Lemma accumulators_discarded_at_finish_witness :
  emitted_calls
    (StreamHandler.handle_stream true false (stray_stream ++ [scenario_b_last]))
  = emitted_calls (StreamHandler.handle_stream true false [scenario_b_last]).
Proof.
  assert (Hs : signals (chunk_of (delta_of (Some (ContentStr "done")) None) (Some "stop"))
               <> None) by discriminate.
  destruct (@accumulators_discarded_at_finish true false
              [chunk_of (delta_of None
                 (Some [obj_call (Some "1") (Some 0%Z) (Some "get_risk") (Some "{}")])) None]
              [scenario_b_last] _ Hs) as [H _].
  change (stray_stream ++ [scenario_b_last])
    with ([chunk_of (delta_of None
             (Some [obj_call (Some "1") (Some 0%Z) (Some "get_risk") (Some "{}")])) None]
          ++ chunk_of (delta_of (Some (ContentStr "done")) None) (Some "stop")
             :: [scenario_b_last]).
  rewrite H. rewrite emitted_calls_app. reflexivity.
Defined.

Lemma handle_from_without_debug (on_finish on_debug : bool) (stream : list Chunk) :
  forall d,
    filter (fun e => negb (is_debug e)) (StreamHandler.handle_from on_finish on_debug stream d)
    = StreamHandler.handle_from on_finish false stream d.
Proof.
  induction stream as [|ch stream IH]; intro d; simpl.
  - reflexivity.
  - rewrite !handle_chunk_shape.
    destruct (prelude_texts on_debug ch) as (_ & _ & P).
    assert (E0 : prelude false ch = chunk_thinking ch ++ chunk_content ch).
    { destruct (prelude_parts false ch) as (dbg & _ & Hnil & ->). now rewrite (Hnil eq_refl). }
    destruct (signals ch) as [r|].
    + destruct (texts_of_batch (after_chunk ch d)) as (_ & _ & B).
      rewrite !filter_app, P, IH, E0.
      destruct (String.eqb r "tool_calls"), on_finish; rewrite ?B; simpl;
        now rewrite <- ?app_assoc.
    + now rewrite filter_app, P, IH, E0.
Qed.

(** X5.  Diagnostics are observational: with [on_debug] given, the events
    other than the diagnostic records are those emitted without it, and
    without it no diagnostic record is produced. *)
Theorem diagnostics_are_observational (on_finish on_debug : bool) (stream : list Chunk) :
  filter (fun e => negb (is_debug e)) (StreamHandler.handle_stream on_finish on_debug stream)
  = StreamHandler.handle_stream on_finish false stream
  /\ Forall (fun e => is_debug e = false) (StreamHandler.handle_stream on_finish false stream).
Proof.
  unfold StreamHandler.handle_stream. split.
  - apply handle_from_without_debug.
  - rewrite <- (handle_from_without_debug on_finish false stream []).
    apply Forall_forall. intros e He. apply filter_In in He.
    destruct He as [_ He]. now destruct (is_debug e).
Qed.

(** X6.  A list-valued [content] is normalized to plain text: it produces
    exactly the event of the string obtained by joining the texts of its
    parts, and in particular none when that string is empty. *)
Theorem content_list_is_joined_text (d : Delta) (parts : list ContentPart) :
  StreamHandler._emit_content (with_content (ContentList parts) d)
  = StreamHandler._emit_content
      (with_content (ContentStr (Py.join (StreamHandler.text_parts parts))) d).
Proof.
  unfold StreamHandler._emit_content, with_content. simpl.
  destruct (delta_is_dict d); [reflexivity|]. simpl.
  destruct parts as [|p parts].
  - reflexivity.
  - change (StreamHandler.content_truthy (ContentList (p :: parts))) with true.
    set (t := Py.join (StreamHandler.text_parts (p :: parts))).
    change (StreamHandler.content_truthy (ContentStr t)) with (Py.truthy t).
    now destruct (Py.truthy t).
Qed.

Lemma probe_truthy (f : ThinkingFields) :
  StreamHandler.thinking_truthy (StreamHandler.probe f)
  = match StreamHandler.probe f with Some _ => true | None => false end.
Proof.
  unfold StreamHandler.probe.
  destruct (StreamHandler.thinking_truthy (thinking f)) eqn:E1;
    [rewrite E1; now destruct (thinking f)|].
  destruct (StreamHandler.thinking_truthy (reasoning f)) eqn:E2;
    [rewrite E2; now destruct (reasoning f)|].
  destruct (StreamHandler.thinking_truthy (reasoning_content f)) eqn:E3;
    [rewrite E3; now destruct (reasoning_content f)|].
  destruct (StreamHandler.thinking_truthy (internal_monologue f)) eqn:E4;
    [rewrite E4; now destruct (internal_monologue f)|].
  reflexivity.
Qed.

(** X7.  Reasoning text is looked for on the delta, then on the choice, then
    on the chunk, and the first level that has a non-empty field wins; a
    delta that is a [dict] is probed like one that is an object.  The answer
    text and the partial calls of a [dict] delta, however, are never
    read. *)
Theorem thinking_levels_and_dict_deltas (d : Delta) (choice : Choice) (chunk : Chunk)
    (tool_calls : StreamHandler.tool_calls_t) :
  StreamHandler.find_thinking d choice chunk
  = first_of3 (StreamHandler.probe d.(delta_fields))
              (StreamHandler.probe choice.(choice_fields))
              (StreamHandler.probe chunk.(chunk_fields))
  /\ StreamHandler._emit_content (with_shape true d) = []
  /\ StreamHandler._collect_tool_calls (with_shape true d) tool_calls = tool_calls.
Proof.
  split; [|split; reflexivity].
  unfold StreamHandler.find_thinking, first_of3.
  pose proof (probe_truthy (delta_fields d)) as Td.
  pose proof (probe_truthy (choice_fields choice)) as Tc.
  destruct (StreamHandler.probe (delta_fields d)) as [v|];
    destruct (StreamHandler.probe (choice_fields choice)) as [w|];
    destruct (delta_is_dict d);
    repeat (change (StreamHandler.thinking_truthy None) with false;
            rewrite ?Td, ?Tc; cbn [negb andb]);
    reflexivity.
Qed.

(** ** Further properties of the accumulators *)

Lemma update_type (self : ToolCallBuilder.t) (c : CallDelta) :
  ToolCallBuilder.type (ToolCallBuilder.update self c) = ToolCallBuilder.type self.
Proof.
  unfold ToolCallBuilder.update, ToolCallBuilder.update_dict, ToolCallBuilder.update_obj.
  destruct (call_is_dict c), (call_function c); reflexivity.
Qed.

(** X8.  Across any run of fragments merged into an accumulator, its type
    never changes, an index once set is never replaced, and an identifier
    once non-empty is never replaced. *)
Theorem identifier_and_index_set_once (deltas : list CallDelta) (self : ToolCallBuilder.t) :
  let self' := fold_left ToolCallBuilder.update deltas self in
  ToolCallBuilder.type self' = ToolCallBuilder.type self
  /\ (forall i, ToolCallBuilder.index self = Some i -> ToolCallBuilder.index self' = Some i)
  /\ (ToolCallBuilder.id self <> EmptyString -> ToolCallBuilder.id self' = ToolCallBuilder.id self).
Proof.
  revert self. induction deltas as [|c deltas IH]; intro self; simpl.
  - repeat split; auto.
  - destruct (IH (ToolCallBuilder.update self c)) as (Ht & Hi & Hid).
    split; [|split].
    + now rewrite Ht, update_type.
    + intros i Hself. apply Hi. now apply update_index.
    + intro Hne. rewrite Hid; rewrite update_id; auto.
Qed.

(** An accumulator with identifier and index keeps both when a fragment
    brings others. *)
Lemma identifier_and_index_set_once_witness :
  let self := ToolCallBuilder.make "1" (Some 0%Z) "function" in
  let self' :=
    fold_left ToolCallBuilder.update
      [obj_call (Some "2") (Some 5%Z) (Some "get_risk") (Some "{}")] self in
  ToolCallBuilder.index self' = Some 0%Z /\ ToolCallBuilder.id self' = "1".
Proof.
  intros self self'.
  destruct (identifier_and_index_set_once
              [obj_call (Some "2") (Some 5%Z) (Some "get_risk") (Some "{}")] self)
    as (_ & Hi & Hid).
  split; [apply Hi; reflexivity | apply Hid; discriminate].
Defined.

Lemma or_else_nonempty (o : option string) (dflt : string) :
  dflt <> EmptyString -> Py.or_else o dflt <> EmptyString.
Proof.
  intro H. unfold Py.or_else. destruct o as [s|]; [|exact H].
  destruct (Py.truthy s) eqn:E; [now apply truthy_true_iff | exact H].
Qed.

Lemma str_or_nonempty (s dflt : string) : dflt <> EmptyString -> Py.str_or s dflt <> EmptyString.
Proof.
  intro H. unfold Py.str_or. destruct (Py.truthy s) eqn:E; [now apply truthy_true_iff | exact H].
Qed.

Lemma collect_one_typed (n : nat) (c : CallDelta) (d : StreamHandler.tool_calls_t) :
  typed d -> typed (StreamHandler.collect_one n c d).
Proof.
  intro Hd. rewrite collect_one_with_key. unfold collect_with_key, typed.
  apply forall_set; [exact Hd|]. simpl. rewrite update_type. unfold accumulator_for.
  destruct (Py.get (StreamHandler.resolve_key n c d) d) as [b|] eqn:G.
  - apply get_some_in in G. unfold typed in Hd. rewrite Forall_forall in Hd.
    exact (Hd _ G).
  - simpl. apply or_else_nonempty. discriminate.
Qed.

Lemma collect_indexed_typed (ics : list (nat * CallDelta)) (d : StreamHandler.tool_calls_t) :
  typed d -> typed (collect_indexed ics d).
Proof.
  revert d. induction ics as [|[n c] ics IH]; intros d Hd.
  - exact Hd.
  - unfold collect_indexed in *. simpl. apply IH. now apply collect_one_typed.
Qed.

Lemma to_dict_ok (b : ToolCallBuilder.t) :
  ToolCallBuilder.type b <> EmptyString -> request_ok (ToolCallBuilder.to_dict b).
Proof.
  intro Ht. unfold request_ok. simpl. repeat split.
  - apply str_or_nonempty. discriminate.
  - exact Ht.
  - apply to_dict_name_nonempty.
Qed.

(** X9.  Every request passed to [on_tool_call], for whatever stream, has a
    non-empty identifier, a non-empty type and a non-empty name: missing
    ones are replaced by ["call"], ["function"] and ["unknown_function"]. *)
Theorem emitted_requests_are_complete (on_finish on_debug : bool) (stream : list Chunk) :
  Forall request_ok (emitted_calls (StreamHandler.handle_stream on_finish on_debug stream)).
Proof.
  unfold StreamHandler.handle_stream.
  assert (H : forall d, typed d ->
                Forall request_ok
                  (emitted_calls (StreamHandler.handle_from on_finish on_debug stream d))).
  { induction stream as [|ch stream IH]; intros d Hd; simpl.
    - constructor.
    - rewrite handle_chunk_shape. destruct (prelude_quiet on_debug ch) as [P _].
      assert (Ha : typed (after_chunk ch d)) by now apply collect_indexed_typed.
      destruct (signals ch) as [r|].
      + rewrite !emitted_calls_app, P. simpl. repeat (apply Forall_app; split).
        * destruct (String.eqb r "tool_calls"); [|constructor].
          rewrite emitted_calls_batch. unfold Py.values. rewrite map_map.
          apply Forall_forall. intros x Hx. apply in_map_iff in Hx.
          destruct Hx as (kb & <- & Hin). apply to_dict_ok.
          unfold typed in Ha. rewrite Forall_forall in Ha. now apply Ha.
        * destruct on_finish; constructor.
        * apply IH. constructor.
      + rewrite emitted_calls_app, P. simpl. now apply IH. }
  apply H. constructor.
Qed.

(** ** Identifiers within a batch *)

Lemma find_by_index_in (ci : Z) (d : StreamHandler.tool_calls_t) (k : string) :
  StreamHandler.find_by_index ci d = Some k -> In k (Py.keys d).
Proof.
  induction d as [|[k0 b0] d IH]; simpl.
  - discriminate.
  - destruct (Py.opt_int_eqb (ToolCallBuilder.index b0) ci).
    + intro E. injection E as ->. now left.
    + intro E. right. now apply IH.
Qed.

Lemma in_keys_get (k : string) (d : StreamHandler.tool_calls_t) :
  In k (Py.keys d) -> exists b, In (k, b) d.
Proof.
  unfold Py.keys. intro H. apply in_map_iff in H. destruct H as ([k0 b] & E & Hin).
  simpl in E. subst. now exists b.
Qed.

Lemma collect_one_keyed_by_id (n : nat) (c : CallDelta) (d : StreamHandler.tool_calls_t) :
  call_id c <> Some EmptyString ->
  keyed_by_id d -> keyed_by_id (StreamHandler.collect_one n c d).
Proof.
  intros Hc [Hnd Hall]. rewrite collect_one_with_key.
  set (key := StreamHandler.resolve_key n c d).
  assert (Hor : Py.or_else (call_id c) key = key).
  { subst key. unfold StreamHandler.resolve_key.
    destruct (call_id c) as [i|]; [|reflexivity]. simpl.
    now destruct (Py.truthy i). }
  assert (Hkey : key <> EmptyString).
  { subst key. unfold StreamHandler.resolve_key.
    destruct (call_id c) as [i|] eqn:Ei.
    - intro E. apply Hc. now rewrite E.
    - destruct (call_index c) as [ci|]; [|discriminate].
      destruct (StreamHandler.find_by_index ci d) as [k|] eqn:F; [|discriminate].
      apply find_by_index_in, in_keys_get in F. destruct F as (b & Hin).
      rewrite Forall_forall in Hall. exact (proj2 (Hall _ Hin)). }
  unfold collect_with_key. split.
  - destruct (Py.contains key d) eqn:E.
    + apply contains_in_keys in E. now rewrite keys_set_known.
    + assert (Hn : ~ In key (Py.keys d)).
      { intro H. apply contains_in_keys in H. congruence. }
      rewrite keys_set_new by exact Hn.
      apply NoDup_app; [exact Hnd | repeat constructor; auto |].
      intros a Ha [<-|[]]. contradiction.
  - apply forall_set; [exact Hall|]. simpl. split; [|exact Hkey].
    assert (Hacc : ToolCallBuilder.id (accumulator_for key c d) = key).
    { unfold accumulator_for. destruct (Py.get key d) as [b|] eqn:G.
      - apply get_some_in in G. rewrite Forall_forall in Hall. exact (proj1 (Hall _ G)).
      - simpl. exact Hor. }
    rewrite update_id; [exact Hacc | now rewrite Hacc].
Qed.

Lemma collect_indexed_keyed_by_id (ics : list (nat * CallDelta))
    (d : StreamHandler.tool_calls_t) :
  Forall (fun c => call_id c <> Some EmptyString) (map snd ics) ->
  keyed_by_id d -> keyed_by_id (collect_indexed ics d).
Proof.
  revert d. induction ics as [|[n c] ics IH]; intros d Hall Hd.
  - exact Hd.
  - inversion Hall as [|? ? Hc Hrest]; subst.
    unfold collect_indexed in *. simpl. apply IH; [exact Hrest|].
    now apply collect_one_keyed_by_id.
Qed.

(** X10.  In a round whose stream signals nothing before its last chunk
    signals [tool_calls], and in which no partial call carries the empty
    string as identifier, the requests of the batch have pairwise different
    identifiers: each is the key of its accumulator. *)
Theorem batch_identifiers_distinct (on_finish on_debug : bool) (stream : list Chunk)
    (last : Chunk) :
  Forall (fun ch => signals ch = None) stream ->
  signals last = Some "tool_calls" ->
  Forall (fun c => call_id c <> Some EmptyString) (stream_calls (stream ++ [last])) ->
  let emitted :=
    emitted_calls (StreamHandler.handle_stream on_finish on_debug (stream ++ [last])) in
  NoDup (map tc_id emitted)
  /\ map tc_id emitted = Py.keys (collect_indexed (indexed_calls (stream ++ [last])) []).
Proof.
  intros Hq Hl Hall emitted. subst emitted.
  rewrite emitted_at_completion by assumption.
  rewrite <- indexed_calls_snd in Hall.
  assert (Hinv : keyed_by_id (collect_indexed (indexed_calls (stream ++ [last])) [])).
  { apply collect_indexed_keyed_by_id; [exact Hall|]. split; constructor. }
  destruct Hinv as [Hnd Hids].
  assert (E : map tc_id
                (map ToolCallBuilder.to_dict
                   (Py.values (collect_indexed (indexed_calls (stream ++ [last])) [])))
              = Py.keys (collect_indexed (indexed_calls (stream ++ [last])) [])).
  { unfold Py.values, Py.keys. rewrite !map_map. apply map_ext_in. intros kb Hin.
    rewrite Forall_forall in Hids. destruct (Hids kb Hin) as [Hid Hne].
    simpl. unfold Py.str_or. rewrite Hid.
    apply truthy_true_iff in Hne. now rewrite Hne. }
  rewrite E. split; [exact Hnd | reflexivity].
Qed.

(** The late identifier of [late_id_last] still gives two different
    identifiers. *)
Lemma batch_identifiers_distinct_witness :
  NoDup (map tc_id
           (emitted_calls
              (StreamHandler.handle_stream true false (late_id_head ++ [late_id_last])))).
Proof.
  apply (@batch_identifiers_distinct true false late_id_head late_id_last).
  - repeat constructor.
  - reflexivity.
  - repeat constructor; discriminate.
Defined.

(** ** Partial calls without identifier and index *)

Lemma str_of_nat_inj (n m : nat) : Py.str_of_nat n = Py.str_of_nat m -> n = m.
Proof.
  unfold Py.str_of_nat. intro H.
  assert (Hnil : forall k, Nat.to_uint k <> Decimal.Nil).
  { intros k E. pose proof (DecimalNat.Unsigned.of_to k) as Hk. rewrite E in Hk.
    simpl in Hk. subst k. discriminate E. }
  apply DecimalNat.Unsigned.to_uint_inj.
  pose proof (@NilZero.usu _ (Hnil n)) as Hn. rewrite H, (@NilZero.usu _ (Hnil m)) in Hn.
  now injection Hn.
Qed.

Lemma collect_indexed_keyed_in (kf : CallDelta -> string) (P : nat * CallDelta -> Prop)
    (Inv : StreamHandler.tool_calls_t -> Prop) :
  (forall n c d, P (n, c) -> Inv d ->
     StreamHandler.resolve_key n c d = kf c /\ Inv (collect_with_key (kf c) c d)) ->
  forall ics d, Forall P ics -> Inv d ->
  collect_indexed ics d = collect_keyed kf (map snd ics) d.
Proof.
  intros Hstep ics. induction ics as [|[n c] ics IH]; intros d HP HI; simpl.
  - reflexivity.
  - inversion HP as [|? ? Hc HP']; subst.
    destruct (Hstep n c d Hc HI) as [Hk HI'].
    unfold collect_indexed, collect_keyed in *. simpl.
    rewrite collect_one_with_key, Hk. now apply IH.
Qed.

Lemma enumerate_short (calls : list CallDelta) :
  List.length calls <= 1 -> Forall (fun ic => fst ic = 0) (enumerate_from 0 calls).
Proof.
  destruct calls as [|c [|c' calls]]; simpl; intro H;
    [constructor | repeat constructor | lia].
Qed.

Lemma indexed_calls_short (stream : list Chunk) :
  Forall (fun ch => List.length (chunk_calls ch) <= 1) stream ->
  Forall (fun ic => fst ic = 0) (indexed_calls stream).
Proof.
  unfold indexed_calls. induction 1 as [|ch stream Hch Hs IH]; simpl.
  - constructor.
  - apply Forall_app. split; [now apply enumerate_short | exact IH].
Qed.

Lemma first_seen_constant (k : string) (l : list string) :
  l <> [] -> Forall (fun x => x = k) l -> first_seen String.eqb l = [k].
Proof.
  intros Hne Hall. destruct Hall as [|x l -> Hl]; [contradiction|].
  unfold first_seen. simpl. clear Hne.
  induction Hl as [|y l -> Hl IH]; simpl.
  - reflexivity.
  - unfold seen at 1. simpl. rewrite String.eqb_refl. simpl. exact IH.
Qed.

(** X11.  A partial call that carries neither identifier nor index is keyed
    by its position in the batch alone: different positions give different
    keys, and the same position gives the same key in every chunk.  So in a
    round whose chunks carry at most one partial call each, all of them
    without identifier and index, the calls of all chunks are merged into a
    single request ["call_0"] whose arguments are their texts in arrival
    order. *)
Theorem anonymous_calls_merge_by_position (on_finish on_debug : bool) (stream : list Chunk)
    (last : Chunk) :
  Forall (fun ch => signals ch = None) stream ->
  signals last = Some "tool_calls" ->
  Forall (fun ch => List.length (chunk_calls ch) <= 1) (stream ++ [last]) ->
  Forall anonymous (stream_calls (stream ++ [last])) ->
  stream_calls (stream ++ [last]) <> [] ->
  (forall n m c d, anonymous c ->
     StreamHandler.resolve_key n c d = call_key n /\ (call_key n = call_key m -> n = m))
  /\ map id_and_arguments
         (emitted_calls (StreamHandler.handle_stream on_finish on_debug (stream ++ [last])))
     = [("call_0",
         String.concat EmptyString (map frag_args (stream_calls (stream ++ [last]))))].
Proof.
  intros Hq Hl Hshort Hanon Hne.
  assert (Hkey : forall n c d, anonymous c -> StreamHandler.resolve_key n c d = call_key n).
  { intros n c d [Hid Hix]. unfold StreamHandler.resolve_key. now rewrite Hid, Hix. }
  split.
  - intros n m c d Hc. split; [now apply Hkey|].
    unfold call_key. intro E. simpl in E. injection E as E. now apply str_of_nat_inj.
  - rewrite emitted_at_completion by assumption. rewrite map_map.
    rewrite <- indexed_calls_snd in *.
    set (ics := indexed_calls (stream ++ [last])) in *.
    assert (HP : Forall (fun ic => fst ic = 0 /\ anonymous (snd ic)) ics).
    { apply indexed_calls_short in Hshort. fold ics in Hshort.
      rewrite Forall_forall in *. intros ic Hin. split; [now apply Hshort|].
      apply Hanon. now apply in_map. }
    rewrite (@collect_indexed_keyed_in (fun _ => call_key 0)
               (fun ic => fst ic = 0 /\ anonymous (snd ic)) (fun _ => True)
               (fun n c d Hc _ =>
                  conj (eq_trans (Hkey n c d (proj2 Hc)) (f_equal call_key (proj1 Hc))) I)
               ics [] HP I).
    rewrite collect_keyed_requests.
    + rewrite (@first_seen_constant (call_key 0)).
      * simpl. f_equal. f_equal. unfold concat_args. f_equal. f_equal.
        apply forallb_filter_id. apply forallb_forall. intros c _. reflexivity.
      * intro E. apply Hne. now apply map_eq_nil in E.
      * apply Forall_forall. intros x Hx. apply in_map_iff in Hx.
        now destruct Hx as (c & <- & _).
    + eapply Forall_impl; [|exact Hanon]. intros c [Hid _]. now left.
Qed.

(** Two chunks with one anonymous call each give one request. *)
Lemma anonymous_calls_merge_by_position_witness :
  map id_and_arguments
      (emitted_calls
         (StreamHandler.handle_stream true false
            ([chunk_of (delta_of None (Some [obj_call None None (Some "get_risk") (Some "{")]))
                       None]
               ++ [chunk_of (delta_of None (Some [obj_call None None None (Some "}")]))
                            (Some "tool_calls")])))
  = [("call_0", "{}")].
Proof.
  apply (@anonymous_calls_merge_by_position true false
           [chunk_of (delta_of None (Some [obj_call None None (Some "get_risk") (Some "{")]))
                     None]
           (chunk_of (delta_of None (Some [obj_call None None None (Some "}")]))
                     (Some "tool_calls"))).
  - repeat constructor.
  - reflexivity.
  - repeat constructor.
  - repeat constructor.
  - discriminate.
Defined.

(** * Further properties of the registry *)

(** X12.  Registration and dispatch round-trip: after [register(tool)],
    [execute] under the tool's name runs that tool and returns its result
    (or exception) unchanged, and the dispatch of every other name is what
    it was before. *)
Theorem register_then_execute (tool : ToolRegistry.Tool) (reg : ToolRegistry.t)
    (other : string) (kwargs : list (string * JValue)) :
  other <> tool.(ToolRegistry.name) ->
  ToolRegistry.execute (ToolRegistry.register tool reg) tool.(ToolRegistry.name) kwargs
  = tool.(ToolRegistry.tool_execute) kwargs
  /\ ToolRegistry.execute (ToolRegistry.register tool reg) other kwargs
     = ToolRegistry.execute reg other kwargs.
Proof.
  intro Hne. unfold ToolRegistry.execute, ToolRegistry.register. split.
  - now rewrite get_set_same.
  - rewrite get_set_other; [reflexivity | now apply not_eq_sym].
Qed.

(** Registering a second tool named ["dummy"] replaces the first and leaves
    the location tool alone. *)
Lemma register_then_execute_witness :
  ToolRegistry.execute (ToolRegistry.register dummy_override example_registry) "dummy" []
  = Ok (JStr "overridden")
  /\ ToolRegistry.execute (ToolRegistry.register dummy_override example_registry)
       "assess_location_risks" []
     = ToolRegistry.execute example_registry "assess_location_risks" [].
Proof.
  apply (@register_then_execute dummy_override example_registry "assess_location_risks" []).
  discriminate.
Defined.

Lemma registry_of_snoc (tools : list ToolRegistry.Tool) (tool : ToolRegistry.Tool) :
  registry_of (tools ++ [tool]) = ToolRegistry.register tool (registry_of tools).
Proof. unfold registry_of. now rewrite fold_left_app. Qed.

Lemma registry_of_named (tools : list ToolRegistry.Tool) :
  Forall (fun kt => ToolRegistry.name (snd kt) = fst kt) (registry_of tools).
Proof.
  induction tools as [|tool tools IH] using rev_ind.
  - constructor.
  - rewrite registry_of_snoc. unfold ToolRegistry.register.
    induction IH as [|[k t] r Hk Hr IHr]; simpl.
    + now repeat constructor.
    + destruct (String.eqb_spec (ToolRegistry.name tool) k) as [E|_];
        constructor; auto.
Qed.

(** X13.  For a registry filled by successive registrations, the exported
    schemas carry each registered name once, in the order of first
    registration, and a name is dispatched to the tool registered last
    under it ([KeyError] when there is none). *)
Theorem registry_order_and_override (tools : list ToolRegistry.Tool) (n : string)
    (kwargs : list (string * JValue)) :
  map ToolRegistry.schema_name (ToolRegistry.get_function_schemas (registry_of tools))
  = first_seen String.eqb (map ToolRegistry.name tools)
  /\ ToolRegistry.execute (registry_of tools) n kwargs
     = match last_named n tools with
       | Some tool => tool.(ToolRegistry.tool_execute) kwargs
       | None => Raised (KeyError ("Tool '" ++ n ++ "' is not registered."))
       end.
Proof.
  split.
  - unfold ToolRegistry.get_function_schemas, Py.values. rewrite !map_map. simpl.
    transitivity (Py.keys (registry_of tools)).
    + unfold Py.keys. apply map_ext_in. intros kt Hin.
      pose proof (registry_of_named tools) as H. rewrite Forall_forall in H. now apply H.
    + induction tools as [|tool tools IH] using rev_ind.
      * reflexivity.
      * rewrite registry_of_snoc, map_app. simpl map. rewrite first_seen_snoc, <- IH.
        unfold ToolRegistry.register.
        destruct (seen String.eqb (ToolRegistry.name tool) (Py.keys (registry_of tools)))
          eqn:E.
        -- apply (seen_in String.eqb String.eqb_eq) in E. now apply keys_set_known.
        -- apply keys_set_new. intro Hin.
           apply (seen_in String.eqb String.eqb_eq) in Hin. congruence.
  - unfold ToolRegistry.execute, last_named.
    assert (E : Py.get n (registry_of tools)
                = find (fun tool => String.eqb (ToolRegistry.name tool) n) (rev tools)).
    { induction tools as [|tool tools IH] using rev_ind.
      - reflexivity.
      - rewrite registry_of_snoc, rev_app_distr. simpl. unfold ToolRegistry.register.
        destruct (String.eqb_spec (ToolRegistry.name tool) n) as [<-|Hne].
        + apply get_set_same.
        + rewrite get_set_other by exact Hne. exact IH. }
    now rewrite E.
Qed.

(** * Further properties of the conversation loop *)

Lemma run_callbacks_chunks (evs : list Event) (st : Warbot.RoundState) :
  Warbot.assistant_chunks (Warbot.run_callbacks evs st)
  = Warbot.assistant_chunks st ++ content_texts evs.
Proof.
  revert st. unfold Warbot.run_callbacks.
  induction evs as [|e evs IH]; intro st; simpl.
  - now rewrite app_nil_r.
  - rewrite IH. destruct e; simpl; try reflexivity. now rewrite <- app_assoc.
Qed.

Lemma run_callbacks_has_tool_calls (evs : list Event) (st : Warbot.RoundState) :
  Warbot.has_tool_calls st = true ->
  Warbot.has_tool_calls (Warbot.run_callbacks evs st) = true.
Proof.
  revert st. unfold Warbot.run_callbacks.
  induction evs as [|e evs IH]; intros st H; simpl.
  - exact H.
  - apply IH. now destruct e.
Qed.





Lemma complete_rounds_one (calls : list ToolCall) (tool_messages : list Message) :
  Forall2 answers calls tool_messages ->
  complete_rounds (AssistantToolCalls calls :: tool_messages).
Proof.
  intro H. rewrite <- (app_nil_r tool_messages). apply rounds_more; [exact H | constructor].
Qed.

Lemma run_callbacks_without_debug (evs : list Event) (st : Warbot.RoundState) :
  let st1 := Warbot.run_callbacks evs st in
  let st2 := Warbot.run_callbacks (filter (fun e => negb (is_debug e)) evs) st in
  Warbot.assistant_chunks st1 = Warbot.assistant_chunks st2
  /\ Warbot.tool_calls st1 = Warbot.tool_calls st2
  /\ Warbot.finish_reason st1 = Warbot.finish_reason st2
  /\ Warbot.console st1 = Warbot.console st2.
Proof.
  unfold Warbot.run_callbacks.
  assert (H : forall s1 s2,
            Warbot.assistant_chunks s1 = Warbot.assistant_chunks s2 ->
            Warbot.tool_calls s1 = Warbot.tool_calls s2 ->
            Warbot.finish_reason s1 = Warbot.finish_reason s2 ->
            Warbot.has_tool_calls s1 = Warbot.has_tool_calls s2 ->
            Warbot.console s1 = Warbot.console s2 ->
            Warbot.assistant_chunks (fold_left Warbot.on_event evs s1)
            = Warbot.assistant_chunks
                (fold_left Warbot.on_event (filter (fun e => negb (is_debug e)) evs) s2)
            /\ Warbot.tool_calls (fold_left Warbot.on_event evs s1)
               = Warbot.tool_calls
                   (fold_left Warbot.on_event (filter (fun e => negb (is_debug e)) evs) s2)
            /\ Warbot.finish_reason (fold_left Warbot.on_event evs s1)
               = Warbot.finish_reason
                   (fold_left Warbot.on_event (filter (fun e => negb (is_debug e)) evs) s2)
            /\ Warbot.console (fold_left Warbot.on_event evs s1)
               = Warbot.console
                   (fold_left Warbot.on_event (filter (fun e => negb (is_debug e)) evs) s2)).
  { induction evs as [|e evs IH]; intros s1 s2 H1 H2 H3 H4 H5; simpl.
    - auto.
    - destruct e; simpl; apply IH; simpl; rewrite ?H1, ?H2, ?H3, ?H4, ?H5; reflexivity. }
  now apply H.
Qed.

Section LoopFacts.

Variable json_loads : string -> option JValue.
Variable json_dumps : JValue -> string.
Variable create : list Message -> list ToolRegistry.FunctionSchema -> list Chunk.
Variable registry : ToolRegistry.t.

Local Abbreviation execute_from := (Warbot.execute_from json_loads json_dumps registry).
Local Abbreviation round := (Warbot.round json_loads json_dumps create registry).
Local Abbreviation rounds := (Warbot.rounds json_loads json_dumps create registry).
Local Abbreviation send_message := (Warbot.send_message json_loads json_dumps create registry).
Local Abbreviation upstream history :=
  (create history (ToolRegistry.get_function_schemas registry)).

(** What one round appends to the history. *)
Lemma round_appends (debug : bool) (history : list Message) :
  match snd (round debug history) with
  | Warbot.Continue history' =>
      exists calls tool_messages,
        Forall2 answers calls tool_messages
        /\ history' = history ++ AssistantToolCalls calls :: tool_messages
  | Warbot.Return content history' => history' = history ++ [AssistantMsg content]
  | Warbot.Raise e history' => exists calls, history' = history ++ [AssistantToolCalls calls]
  end.
Proof.
  unfold Warbot.round. rewrite format_assistant_tool_message.
  match goal with |- context [if ?c then _ else _] => destruct c end; [|reflexivity].
  unfold Warbot._execute_tool_calls.
  destruct (execute_from _ []) as [log [tool_messages|e]] eqn:E; simpl.
  - destruct (@execute_from_ok json_loads json_dumps registry _ _ _ _ E)
      as (new & -> & Hans & _).
    eexists _, new. split; [exact Hans|]. now rewrite <- app_assoc.
  - now eexists.
Qed.

Lemma rounds_append (debug : bool) (fuel : nat) :
  forall history,
    match rounds debug fuel history with
    | Warbot.Returned content history' =>
        exists blocks,
          complete_rounds blocks /\ history' = history ++ blocks ++ [AssistantMsg content]
    | Warbot.Failed e history' =>
        exists blocks calls,
          complete_rounds blocks /\ history' = history ++ blocks ++ [AssistantToolCalls calls]
    | Warbot.OutOfFuel history' =>
        exists blocks, complete_rounds blocks /\ history' = history ++ blocks
    end.
Proof.
  induction fuel as [|fuel IH]; intro history; simpl.
  - exists []. split; [constructor | now rewrite app_nil_r].
  - pose proof (round_appends debug history) as Hr.
    destruct (snd (round debug history)) as [h1|content h1|e h1].
    + destruct Hr as (calls & tool_messages & Hans & ->).
      specialize (IH (history ++ AssistantToolCalls calls :: tool_messages)).
      destruct (rounds debug fuel _) as [c h'|e h'|h'].
      * destruct IH as (blocks & Hb & ->).
        exists (AssistantToolCalls calls :: tool_messages ++ blocks).
        split; [now apply rounds_more|].
        repeat (rewrite <- app_assoc || rewrite <- app_comm_cons). reflexivity.
      * destruct IH as (blocks & calls' & Hb & ->).
        exists (AssistantToolCalls calls :: tool_messages ++ blocks), calls'.
        split; [now apply rounds_more|].
        repeat (rewrite <- app_assoc || rewrite <- app_comm_cons). reflexivity.
      * destruct IH as (blocks & Hb & ->).
        exists (AssistantToolCalls calls :: tool_messages ++ blocks).
        split; [now apply rounds_more|].
        repeat (rewrite <- app_assoc || rewrite <- app_comm_cons). reflexivity.
    + exists []. split; [constructor | now subst].
    + destruct Hr as (calls & ->). exists [], calls. split; [constructor | reflexivity].
Qed.

(** X15.  [send_message] only ever appends to the history: the user message
    first, then for every finished tool round the assistant message with
    its requests followed by exactly one tool-role message per request, in
    order and with the request's identifier and name.  A returned answer
    is the last entry, as an assistant message; after an exception the last
    entry is the assistant message of the round that failed, with no
    tool-role message after it. *)
Theorem history_only_grows_by_rounds (debug : bool) (fuel : nat) (history : list Message)
    (user_input : string) :
  match send_message debug fuel history user_input with
  | Warbot.Returned content history' =>
      exists blocks,
        complete_rounds blocks
        /\ history' = history ++ UserMsg user_input :: blocks ++ [AssistantMsg content]
  | Warbot.Failed e history' =>
      exists blocks calls,
        complete_rounds blocks
        /\ history' = history ++ UserMsg user_input :: blocks ++ [AssistantToolCalls calls]
  | Warbot.OutOfFuel history' =>
      exists blocks, complete_rounds blocks /\ history' = history ++ UserMsg user_input :: blocks
  end.
Proof.
  unfold Warbot.send_message.
  pose proof (rounds_append debug fuel (history ++ [UserMsg user_input])) as H.
  destruct (rounds debug fuel (history ++ [UserMsg user_input])) as [c h'|e h'|h'].
  - destruct H as (blocks & Hb & ->). exists blocks. split; [exact Hb|].
    now rewrite <- app_assoc.
  - destruct H as (blocks & calls & Hb & ->). exists blocks, calls. split; [exact Hb|].
    now rewrite <- app_assoc.
  - destruct H as (blocks & Hb & ->). exists blocks. split; [exact Hb|].
    now rewrite <- app_assoc.
Qed.

(** X16.  In a round in which no chunk signals [tool_calls], the answer
    returned and stored is the concatenation, in arrival order, of the
    answer texts of the chunks' first choices. *)
Theorem returned_answer_is_concatenation (debug : bool) (history : list Message) :
  Forall (fun ch => signals_tool_calls ch = false) (upstream history) ->
  let content :=
    Py.join (flat_map (fun ch => content_texts (chunk_content ch)) (upstream history)) in
  round debug history = ([], Warbot.Return content (history ++ [AssistantMsg content])).
Proof.
  intros Hq content.
  destruct (handle_from_without_tool_calls true debug Hq []) as [He Hf].
  fold (StreamHandler.handle_stream true debug (upstream history)) in He, Hf.
  assert (Hchunks : Warbot.assistant_chunks (Warbot.after_stream create registry debug history)
                    = flat_map (fun ch => content_texts (chunk_content ch))
                        (upstream history)).
  { unfold Warbot.after_stream. rewrite run_callbacks_chunks. simpl.
    unfold StreamHandler.handle_stream.
    exact (proj1 (handle_from_texts true debug (upstream history) [])). }
  unfold Warbot.round.
  rewrite (after_stream_tool_calls create registry debug history), He, Hchunks. simpl.
  destruct (Warbot.finish_reason (Warbot.after_stream create registry debug history))
    as [r|] eqn:Er; [|reflexivity].
  destruct (String.eqb_spec r "tool_calls") as [->|_]; [|reflexivity].
  apply run_callbacks_finish_reason in Er. destruct Er as [Er|Er]; [|discriminate].
  contradiction.
Qed.

(** X17.  The [debug] flag does not change what the bot does: every round,
    and so [send_message], ends in the same outcome with the same history
    and the same registry calls whether diagnostics are on or off. *)
Theorem debug_flag_is_observational (debug : bool) (fuel : nat) (history : list Message)
    (user_input : string) :
  round debug history = round false history
  /\ send_message debug fuel history user_input = send_message false fuel history user_input.
Proof.
  assert (Hround : forall h, round debug h = round false h).
  { intro h. unfold Warbot.round.
    assert (Hst : Warbot.assistant_chunks (Warbot.after_stream create registry debug h)
                  = Warbot.assistant_chunks (Warbot.after_stream create registry false h)
                  /\ Warbot.tool_calls (Warbot.after_stream create registry debug h)
                     = Warbot.tool_calls (Warbot.after_stream create registry false h)
                  /\ Warbot.finish_reason (Warbot.after_stream create registry debug h)
                     = Warbot.finish_reason (Warbot.after_stream create registry false h)).
    { unfold Warbot.after_stream.
      destruct (run_callbacks_without_debug
                  (StreamHandler.handle_stream true debug (upstream h)) Warbot.round_start)
        as (H1 & H2 & H3 & _).
      unfold StreamHandler.handle_stream in *.
      rewrite handle_from_without_debug in H1, H2, H3.
      split; [exact H1 | split; [exact H2 | exact H3]]. }
    destruct Hst as (-> & -> & ->). reflexivity. }
  split; [apply Hround|].
  unfold Warbot.send_message. generalize (history ++ [UserMsg user_input]).
  induction fuel as [|fuel IH]; intro h; simpl.
  - reflexivity.
  - rewrite Hround. destruct (snd (round false h)); [apply IH | reflexivity | reflexivity].
Qed.

End LoopFacts.

(** A stream of two text chunks ending with [stop]. *)
Lemma returned_answer_is_concatenation_witness :
  Warbot.round example_loads example_dumps (always stray_stream) example_registry false
    start_history
  = ([], Warbot.Return "done" (start_history ++ [AssistantMsg "done"])).
Proof.
  apply (@returned_answer_is_concatenation example_loads example_dumps (always stray_stream)
           example_registry false start_history).
  repeat constructor.
Defined.

(** X19.  When a dispatch raises, the registry was called for the requests
    before the failing one, each of which returned, and for the failing one;
    the requests after it are never dispatched.  (The results of the
    requests before it are dropped with the round: no tool-role message is
    appended.) *)
Theorem dispatch_stops_at_first_failure (json_loads : string -> option JValue)
    (json_dumps : JValue -> string) (registry : ToolRegistry.t)
    (calls : list ToolCall) (messages : list Message)
    (log : list (string * JValue)) (e : Exn) :
  Warbot.execute_from json_loads json_dumps registry calls messages = (log, Raised e) ->
  exists before call after,
    calls = before ++ call :: after
    /\ Forall (dispatch_returns json_loads registry) before
    /\ ToolRegistry.call_execute registry call.(tc_name)
         (Warbot.parse_args json_loads call.(tc_arguments)) = Raised e
    /\ log = map (dispatched json_loads) (before ++ [call]).
Proof.
  revert messages log. induction calls as [|c calls IH]; intros messages log; simpl.
  - discriminate.
  - destruct (ToolRegistry.call_execute registry (tc_name c)
                (Warbot.parse_args json_loads (tc_arguments c))) as [result|e'] eqn:E.
    + destruct (Warbot.execute_from json_loads json_dumps registry calls _) as [log' r] eqn:R.
      intro H. injection H as <- ->.
      destruct (IH _ _ R) as (before & call & after & -> & Hb & Hc & ->).
      exists (c :: before), call, after. repeat split.
      * constructor; [now exists result | exact Hb].
      * exact Hc.
    + intro H. injection H as <- <-.
      exists [], c, calls. repeat split; [constructor | exact E].
Qed.

(** Three requests, the second for an unregistered capability: the dummy
    tool runs once, the third request is not dispatched. *)
Lemma dispatch_stops_at_first_failure_witness :
  exists before call after,
    emitted_calls (StreamHandler.handle_stream true false second_fails_stream)
    = before ++ call :: after
    /\ Forall (dispatch_returns example_loads example_registry) before
    /\ ToolRegistry.call_execute example_registry call.(tc_name)
         (Warbot.parse_args example_loads call.(tc_arguments))
       = Raised (KeyError "Tool 'foo' is not registered.")
    /\ [("dummy", JDict []); ("foo", JDict [])]
       = map (dispatched example_loads) (before ++ [call]).
Proof.
  apply (@dispatch_stops_at_first_failure example_loads example_dumps example_registry
           (emitted_calls (StreamHandler.handle_stream true false second_fails_stream))
           [] [("dummy", JDict []); ("foo", JDict [])]
           (KeyError "Tool 'foo' is not registered.") eq_refl).
Defined.

(** * Further properties of the merge *)

(** X20.  The two branches of [update] agree: a partial call that has a
    [function] part is merged in the same way whether it is a [dict] or an
    object.  Without a [function] part an object is ignored altogether,
    while a [dict] can still bring an identifier or an index into an
    accumulator that lacks one; neither changes name or arguments. *)
Theorem update_shapes_agree (self : ToolCallBuilder.t) (c : CallDelta) :
  (c.(call_function) <> None ->
   ToolCallBuilder.update self (call_with_shape true c)
   = ToolCallBuilder.update self (call_with_shape false c))
  /\ (c.(call_function) = None ->
      ToolCallBuilder.update self (call_with_shape false c) = self
      /\ ToolCallBuilder.function_name (ToolCallBuilder.update self (call_with_shape true c))
         = ToolCallBuilder.function_name self
      /\ ToolCallBuilder.arguments (ToolCallBuilder.update self (call_with_shape true c))
         = ToolCallBuilder.arguments self).
Proof.
  unfold ToolCallBuilder.update, ToolCallBuilder.update_dict, ToolCallBuilder.update_obj,
    call_with_shape. simpl. split.
  - destruct (call_function c) as [[n a]|]; [intros _ | congruence]. simpl. f_equal.
    + unfold Py.truthy_opt, Py.or_else. destruct (call_id c) as [i|]; [|reflexivity].
      destruct (Py.truthy i); simpl; [|now rewrite andb_false_r].
      now destruct (negb (Py.truthy (ToolCallBuilder.id self))).
    + unfold Py.truthy_opt, Py.or_else. destruct n as [n|]; [|reflexivity].
      now destruct (Py.truthy n).
  - intros ->. repeat split.
Qed.

(** An object and a [dict] with the same fields give the same accumulator;
    an object without [function] changes nothing. *)
Lemma update_shapes_agree_witness :
  let self := ToolCallBuilder.make EmptyString None "function" in
  let full := obj_call (Some "1") (Some 0%Z) (Some "get_risk") (Some "{}") in
  let bare := {| call_is_dict := false; call_id := Some "1"; call_type := None;
                 call_index := Some 0%Z; call_function := None |} in
  ToolCallBuilder.update self (call_with_shape true full)
  = ToolCallBuilder.update self (call_with_shape false full)
  /\ ToolCallBuilder.update self (call_with_shape false bare) = self.
Proof.
  intros self full bare. split.
  - apply (proj1 (update_shapes_agree self full)). discriminate.
  - apply (proj2 (update_shapes_agree self bare)). reflexivity.
Defined.

Lemma collect_one_keeps_keys (n : nat) (c : CallDelta) (d : StreamHandler.tool_calls_t)
    (k : string) :
  In k (Py.keys d) -> In k (Py.keys (StreamHandler.collect_one n c d)).
Proof.
  intro H. rewrite collect_one_with_key. unfold collect_with_key.
  destruct (keys_set_extends (StreamHandler.resolve_key n c d)
              (ToolCallBuilder.update
                 (accumulator_for (StreamHandler.resolve_key n c d) c d) c) d)
    as (new & ->).
  apply in_or_app. now left.
Qed.

Lemma collect_one_has_key (n : nat) (c : CallDelta) (d : StreamHandler.tool_calls_t) :
  In (StreamHandler.resolve_key n c d) (Py.keys (StreamHandler.collect_one n c d)).
Proof.
  rewrite collect_one_with_key. unfold collect_with_key.
  apply contains_in_keys. unfold Py.contains. now rewrite get_set_same.
Qed.

Lemma collect_indexed_keeps_keys (ics : list (nat * CallDelta))
    (d : StreamHandler.tool_calls_t) (k : string) :
  In k (Py.keys d) -> In k (Py.keys (collect_indexed ics d)).
Proof.
  revert d. induction ics as [|[n c] ics IH]; intros d H.
  - exact H.
  - unfold collect_indexed in *. simpl. apply IH. now apply collect_one_keeps_keys.
Qed.

(** X21.  No partial call is lost before the terminal reason: every partial
    call, whatever it carries, leaves an accumulator under its key, and an
    accumulator stays in flight while further calls are merged.  So when a
    stream that signalled nothing signals [tool_calls], at least one request
    is emitted as soon as any partial call arrived. *)
Theorem no_partial_call_is_lost (on_finish on_debug : bool) (stream : list Chunk)
    (last : Chunk) :
  Forall (fun ch => signals ch = None) stream ->
  signals last = Some "tool_calls" ->
  stream_calls (stream ++ [last]) <> [] ->
  emitted_calls (StreamHandler.handle_stream on_finish on_debug (stream ++ [last])) <> []
  /\ forall n c d ics,
       In (StreamHandler.resolve_key n c d)
          (Py.keys (collect_indexed ics (StreamHandler.collect_one n c d))).
Proof.
  intros Hq Hl Hne. split.
  - rewrite emitted_at_completion by assumption.
    rewrite <- indexed_calls_snd in Hne.
    destruct (indexed_calls (stream ++ [last])) as [|[n c] ics]; [contradiction|].
    pose proof (@collect_indexed_keeps_keys ics (StreamHandler.collect_one n c []) _
                  (collect_one_has_key n c [])) as Hin.
    unfold collect_indexed in *. simpl.
    intro E. apply map_eq_nil in E. unfold Py.values in E. apply map_eq_nil in E.
    rewrite E in Hin. exact Hin.
  - intros n c d ics. apply collect_indexed_keeps_keys. apply collect_one_has_key.
Qed.

(** A partial call that carries nothing at all is still finalized. *)
Lemma no_partial_call_is_lost_witness :
  emitted_calls
    (StreamHandler.handle_stream true false
       ([] ++ [chunk_of (delta_of None
                           (Some [{| call_is_dict := false; call_id := None;
                                     call_type := None; call_index := None;
                                     call_function := None |}]))
                        (Some "tool_calls")]))
  <> [].
Proof.
  apply (@no_partial_call_is_lost true false []
           (chunk_of (delta_of None
                        (Some [{| call_is_dict := false; call_id := None;
                                  call_type := None; call_index := None;
                                  call_function := None |}]))
                     (Some "tool_calls"))).
  - constructor.
  - reflexivity.
  - discriminate.
Defined.

(** * Settings *)

(** X22.  [load_settings] raises its [ValueError] exactly when neither
    [OPENAI_API_KEY] nor [OPENAI_APIKEY] holds a non-empty value.  Otherwise
    the key is the value of [OPENAI_API_KEY] when that is non-empty and of
    [OPENAI_APIKEY] when not; the model is the value of [OPENAI_MODEL]
    whenever that variable is set, even to the empty string, and
    ["gpt-5-mini"] only when it is unset. *)
Theorem load_settings_key_and_model (load_dotenv : Config.environ -> Config.environ)
    (env : Config.environ) :
  let e := load_dotenv env in
  match Config.load_settings load_dotenv env with
  | Config.ValueError _ =>
      Py.truthy_opt (Config.getenv e "OPENAI_API_KEY") = false
      /\ Py.truthy_opt (Config.getenv e "OPENAI_APIKEY") = false
  | Config.Ready s =>
      s.(Config.api_key) <> EmptyString
      /\ Some s.(Config.api_key)
         = (if Py.truthy_opt (Config.getenv e "OPENAI_API_KEY")
            then Config.getenv e "OPENAI_API_KEY"
            else Config.getenv e "OPENAI_APIKEY")
      /\ s.(Config.model)
         = match Config.getenv e "OPENAI_MODEL" with
           | Some m => m
           | None => "gpt-5-mini"
           end
      /\ s.(Config.base_url) = Config.getenv e "OPENAI_BASE_URL"
  end.
Proof.
  intro e. unfold Config.load_settings, Config._get_api_key. fold e. simpl.
  unfold Config.getenv.
  destruct (Py.get "OPENAI_API_KEY" e) as [k1|] eqn:E1; simpl.
  - destruct (Py.truthy k1) eqn:T1; simpl.
    + rewrite T1. simpl. repeat split. now apply truthy_true_iff.
    + destruct (Py.get "OPENAI_APIKEY" e) as [k2|] eqn:E2; simpl; [|now split].
      destruct (Py.truthy k2) eqn:T2; simpl; [|now split].
      rewrite T2. simpl. repeat split. now apply truthy_true_iff.
  - destruct (Py.get "OPENAI_APIKEY" e) as [k2|] eqn:E2; simpl; [|now split].
    destruct (Py.truthy k2) eqn:T2; simpl; [|now split].
    rewrite T2. simpl. repeat split. now apply truthy_true_iff.
Qed.

(** X23.  Precedence of the settings: a command-line flag counts only when
    it is non-empty, and then it beats the environment; the key is never
    affected by the flags; [build_settings] fails exactly when
    [load_settings] does; and the client is given a base URL only when the
    resulting one is non-empty. *)
Theorem settings_precedence (load_dotenv : Config.environ -> Config.environ)
    (args : Main.Args) (env : Config.environ) :
  match Config.load_settings load_dotenv env, Main.build_settings load_dotenv args env with
  | Config.Ready s0, Config.Ready s =>
      s.(Config.api_key) = s0.(Config.api_key)
      /\ s.(Config.model)
         = (if Py.truthy_opt args.(Main.args_model)
            then Py.or_else args.(Main.args_model) EmptyString
            else s0.(Config.model))
      /\ s.(Config.base_url)
         = (if Py.truthy_opt args.(Main.args_base_url)
            then args.(Main.args_base_url)
            else s0.(Config.base_url))
      /\ (Config.build_client s).(Config.client_api_key) = s0.(Config.api_key)
      /\ (Config.build_client s).(Config.client_base_url)
         = (if Py.truthy_opt s.(Config.base_url) then s.(Config.base_url) else None)
  | Config.ValueError m0, Config.ValueError m => m = m0
  | _, _ => False
  end.
Proof.
  unfold Main.build_settings.
  destruct (Config.load_settings load_dotenv env) as [s0|m0]; [|reflexivity].
  unfold Config.build_client.
  destruct (Main.args_model args) as [m|]; simpl;
    try destruct (Py.truthy m) eqn:Tm; simpl;
    destruct (Main.args_base_url args) as [u|]; simpl;
    try destruct (Py.truthy u) eqn:Tu; simpl; rewrite ?Tu;
    try (destruct (Py.truthy_opt (Config.base_url s0)));
    repeat split.
Qed.
